(** * go-ds-sql: a shallow embedding of the SQL-backed datastore

    The development follows the Go sources: [sqlds] (the core, README.md),
    the two dialect providers [postgres] and [sqlite], and just enough of
    the external collaborators (Go's [fmt.Sprintf], [path.Clean],
    go-datastore's [Key] and naive query helpers, [database/sql] and the SQL
    engine) to run the core's code paths. *)

From Stdlib Require Import String Ascii List ZArith Bool Lia.
From Stdlib Require Import Numbers.DecimalString Permutation.
Import ListNotations.
Open Scope string_scope.

(* ------------------------------------------------------------------ *)
(** ** Go's [fmt.Sprintf], restricted to the verbs the sources use *)

Inductive FmtArg :=
| FStr (s : string)
| FInt (z : Z).

(** [%d] renders a Go [int] in decimal. *)
Definition Z_to_dec (z : Z) : string := NilZero.string_of_int (Z.to_int z).

Definition fmt_verb (v : ascii) (a : FmtArg) : string :=
  match a with
  | FStr s => if Ascii.eqb v "s" then s else "%!" ++ String v ("(string=" ++ s ++ ")")
  | FInt z => if Ascii.eqb v "d" then Z_to_dec z else "%!" ++ String v ("(int=" ++ Z_to_dec z ++ ")")
  end.

(** [%%] is a literal percent sign; [%s] and [%d] consume one argument.
    (Extra arguments, which Go reports as [%!(EXTRA ...)], never occur in
    the sources.) *)
Fixpoint sprintf (fmt : string) (args : list FmtArg) : string :=
  match fmt with
  | EmptyString => EmptyString
  | String c rest =>
      if Ascii.eqb c "%" then
        match rest with
        | EmptyString => "%!(NOVERB)"
        | String v rest' =>
            if Ascii.eqb v "%" then String "%" (sprintf rest' args)
            else match args with
                 | [] => "%!" ++ String v "(MISSING)" ++ sprintf rest' []
                 | a :: args' => fmt_verb v a ++ sprintf rest' args'
                 end
        end
      else String c (sprintf rest args)
  end.

(* ------------------------------------------------------------------ *)
(** ** go-datastore's [Key]: [NewKey] cleans its argument with [path.Clean] *)

Fixpoint split_on (sep : ascii) (s : string) : list string :=
  match s with
  | EmptyString => [EmptyString]
  | String c r =>
      let segs := split_on sep r in
      if Ascii.eqb c sep then EmptyString :: segs
      else match segs with
           | s0 :: ss => String c s0 :: ss
           | [] => [String c EmptyString]
           end
  end.

(** Lexical processing of [path.Clean] on a rooted path: empty and [.]
    elements vanish, [..] removes the preceding element (and is dropped at
    the root). *)
Fixpoint clean_segs (segs : list string) (stack : list string) : list string :=
  match segs with
  | [] => rev stack
  | s :: ss =>
      if String.eqb s "" || String.eqb s "." then clean_segs ss stack
      else if String.eqb s ".." then clean_segs ss (tl stack)
      else clean_segs ss (s :: stack)
  end.

(** [path.Clean] of a path that starts with a slash. *)
Definition path_clean (s : string) : string :=
  "/" ++ String.concat "/" (clean_segs (split_on "/" s) []).

(** [Key.Clean] *)
Definition key_clean (s : string) : string :=
  match s with
  | EmptyString => "/"
  | String c _ => if Ascii.eqb c "/" then path_clean s else path_clean ("/" ++ s)
  end.

(** A [ds.Key] is its (clean) string; [NewKey(s).String()]. *)
Definition NewKey (s : string) : string := key_clean s.

(** [Key.IsAncestorOf]: [other] lies strictly below [k]. *)
Definition IsAncestorOf (k other : string) : bool :=
  if (String.length other <=? String.length k)%nat then false
  else if String.eqb k "/" then true
  else String.prefix k other
       && match String.get (String.length k) other with
          | Some c => Ascii.eqb c "/"
          | None => false
          end.

Definition bytes := list Byte.byte.

Record Entry := {
  e_Key : string;
  e_Value : bytes;       (* nil is the empty list *)
  e_Size : Z
}.

Inductive error :=
| ErrNotFound                 (* ds.ErrNotFound *)
| ErrNoRows                   (* sql.ErrNoRows *)
| ErrTxDone                   (* sql.ErrTxDone *)
| ErrNoTransaction            (* errors.New("no transaction started, cannot commit") *)
| ErrBadKeyLength (n : nat)   (* fmt.Errorf("bad key length, expected 32 bytes, got %d") *)
| ErrWrap (msg : string) (cause : error)  (* errors.Wrap *)
| ErrDb (msg : string).       (* any error reported by the driver or the engine *)

(* ------------------------------------------------------------------ *)
(** ** What construction sees of the driver

    [sql.Open] only looks the driver up and parses the DSN; [db.Ping]
    makes a round trip to the database; [db.Exec] runs a statement. *)

Record Env := {
  env_open : string -> string -> option error;           (* driver, DSN *)
  env_ping : string -> string -> option error;           (* driver, DSN *)
  env_exec : string -> string -> string -> option error  (* driver, DSN, statement *)
}.

Definition hex_digit (n : N) : ascii :=
  ascii_of_N (if (n <? 10)%N then (48 + n)%N else (87 + n)%N).

(** [hex.EncodeToString] *)
Definition hex_EncodeToString (b : list Byte.byte) : string :=
  fold_right (fun x acc =>
                let n := Byte.to_N x in
                String (hex_digit (n / 16)%N) (String (hex_digit (n mod 16)%N) acc)) "" b.

(** [strings.ContainsRune] *)
Fixpoint ContainsRune (s : string) (r : ascii) : bool :=
  match s with
  | EmptyString => false
  | String c s' => Ascii.eqb c r || ContainsRune s' r
  end.

(* ------------------------------------------------------------------ *)
(** ** The dialect contract ([sqlds.Queries]) and its two providers *)

Record Queries := {
  deleteQuery : string;
  existsQuery : string;
  getQuery : string;
  putQuery : string;
  queryQuery : string;
  prefixQuery : string;
  limitQuery : string;
  offsetQuery : string;
  getSizeQuery : string
}.

(** A constructed datastore: its connection and its statement set. *)
Record Handle := {
  h_driver : string;
  h_dsn : string;
  h_queries : Queries
}.

Module Postgres.
Definition NewQueries (tbl : string) : Queries := {|
  deleteQuery := sprintf "DELETE FROM %s WHERE key = $1" [FStr tbl];
  existsQuery := sprintf "SELECT exists(SELECT 1 FROM %s WHERE key=$1)" [FStr tbl];
  getQuery := sprintf "SELECT data FROM %s WHERE key = $1" [FStr tbl];
  putQuery := sprintf "INSERT INTO %s (key, data) VALUES ($1, $2) ON CONFLICT (key) DO UPDATE SET data = $2" [FStr tbl];
  queryQuery := sprintf "SELECT key, data FROM %s" [FStr tbl];
  prefixQuery := " WHERE key LIKE '%s%%' ORDER BY key";
  limitQuery := " LIMIT %d";
  offsetQuery := " OFFSET %d";
  getSizeQuery := sprintf "SELECT octet_length(data) FROM %s WHERE key = $1" [FStr tbl]
|}.

Record Options := {
  Host : string; Port : string; User : string; Password : string;
  Database : string; Table : string
}.

Definition setDefaults (o : Options) : Options := {|
  Host := if String.eqb (Host o) "" then "127.0.0.1" else Host o;
  Port := if String.eqb (Port o) "" then "5432" else Port o;
  User := if String.eqb (User o) "" then "postgres" else User o;
  Password := Password o;
  Database := if String.eqb (Database o) "" then "datastore" else Database o;
  Table := if String.eqb (Table o) "" then "blocks" else Table o
|}.

Definition Create (env : Env) (opts : Options) : option Handle * option error :=
  let opts := setDefaults opts in
  let fmtstr := "postgresql:///%s?host=%s&port=%s&user=%s&password=%s&sslmode=disable" in
  let constr := sprintf fmtstr [FStr (Database opts); FStr (Host opts); FStr (Port opts);
                                FStr (User opts); FStr (Password opts)] in
  match env_open env "postgres" constr with
  | Some e => (None, Some e)
  | None => (Some {| h_driver := "postgres"; h_dsn := constr; h_queries := NewQueries (Table opts) |}, None)
  end.
End Postgres.

Module Sqlite.
Definition NewQueries (tbl : string) : Queries := {|
  deleteQuery := sprintf "DELETE FROM %s WHERE key = $1" [FStr tbl];
  existsQuery := sprintf "SELECT exists(SELECT 1 FROM %s WHERE key=$1)" [FStr tbl];
  getQuery := sprintf "SELECT data FROM %s WHERE key = $1" [FStr tbl];
  putQuery := sprintf "INSERT OR REPLACE INTO %s(key, data) VALUES($1, $2)" [FStr tbl];
  queryQuery := sprintf "SELECT key, data FROM %s" [FStr tbl];
  prefixQuery := " WHERE key GLOB '%s*' ORDER BY key";
  limitQuery := " LIMIT %d";
  offsetQuery := " OFFSET %d";
  getSizeQuery := sprintf "SELECT length(data) FROM %s WHERE key = $1" [FStr tbl]
|}.

Record Options := {
  Driver : string; DSN : string; Table : string;
  NoCreate : bool;              (* don't try to create the table *)
  Key : list Byte.byte;         (* sqlcipher key *)
  CipherPageSize : Z
}.

Definition setDefaults (o : Options) : Options := {|
  Driver := if String.eqb (Driver o) "" then "sqlite3" else Driver o;
  DSN := if String.eqb (DSN o) "" then ":memory:" else DSN o;
  Table := if String.eqb (Table o) "" then "blocks" else Table o;
  NoCreate := NoCreate o;
  Key := Key o;
  CipherPageSize :=
    if negb (Nat.eqb (List.length (Key o)) 0) && Z.eqb (CipherPageSize o) 0 then 4096%Z
    else CipherPageSize o
|}.

(** The table layout of the source, its whitespace normalised. *)
Definition create_table (tbl : string) : string :=
  sprintf "CREATE TABLE IF NOT EXISTS %s (key TEXT PRIMARY KEY, data BLOB) WITHOUT ROWID;" [FStr tbl].

Definition Create (env : Env) (opts : Options) : option Handle * option error :=
  let opts := setDefaults opts in
  let args :=
    if Nat.eqb (List.length (Key opts)) 0 then inl []
    else if negb (Nat.eqb (List.length (Key opts)) 32) then inr (ErrBadKeyLength (List.length (Key opts)))
    else inl [sprintf "_pragma_key=x'%s'" [FStr (hex_EncodeToString (Key opts))];
              sprintf "_pragma_cipher_page_size=%d" [FInt (CipherPageSize opts)]] in
  match args with
  | inr e => (None, Some e)
  | inl args =>
      let dsn := DSN opts in
      let dsn :=
        match args with
        | [] => dsn
        | _ => (if ContainsRune dsn "?" then dsn ++ "&" else dsn ++ "?") ++ String.concat "&" args
        end in
      match env_open env (Driver opts) dsn with
      | Some e => (None, Some (ErrWrap "failed to open database" e))
      | None =>
          match env_ping env (Driver opts) dsn with
          | Some e => (None, Some (ErrWrap "failed to ping database" e))  (* after db.Close() *)
          | None =>
              let ok := (Some {| h_driver := Driver opts; h_dsn := dsn;
                                 h_queries := NewQueries (Table opts) |}, None) in
              if NoCreate opts then ok
              else match env_exec env (Driver opts) dsn (create_table (Table opts)) with
                   | Some e => (None, Some (ErrWrap "failed to ensure table exists" e))
                   | None => ok
                   end
          end
      end
  end.
End Sqlite.

Inductive Dialect := PG | SQLITE.

Definition dialect_queries (d : Dialect) (tbl : string) : Queries :=
  match d with
  | PG => Postgres.NewQueries tbl
  | SQLITE => Sqlite.NewQueries tbl
  end.

(* ------------------------------------------------------------------ *)
(** ** go-datastore's query types ([dsq]) *)

Record Result := {
  r_Entry : Entry;
  r_Error : option error
}.

Definition Filter := Entry -> bool.     (* dsq.Filter.Filter *)
Definition Order := Entry -> Entry -> Z. (* dsq.Order.Compare *)

Record Query := {
  Prefix : string;
  Filters : list Filter;
  Orders : list Order;
  Limit : Z;
  Offset : Z;
  KeysOnly : bool;
  ReturnsSizes : bool
}.

Definition set_limit_offset (q : Query) (l o : Z) : Query := {|
  Prefix := Prefix q; Filters := Filters q; Orders := Orders q;
  Limit := l; Offset := o; KeysOnly := KeysOnly q; ReturnsSizes := ReturnsSizes q
|}.

(* ------------------------------------------------------------------ *)
(** ** The query composer: the SQL text built by [QueryWithParams] *)

Definition no_naive (q : Query) : bool :=
  match Filters q, Orders q with
  | [], [] => true
  | _, _ => false
  end.

Definition QueryWithParams_sql (qs : Queries) (q : Query) : string :=
  let qNew := queryQuery qs in
  let qNew :=
    if String.eqb (Prefix q) "" then qNew
    else
      let prefix := NewKey (Prefix q) in
      if String.eqb prefix "/" then qNew
      else qNew ++ sprintf (prefixQuery qs) [FStr (prefix ++ "/")] in
  if no_naive q then
    let qNew := if Z.eqb (Limit q) 0 then qNew
                else qNew ++ sprintf (limitQuery qs) [FInt (Limit q)] in
    if Z.eqb (Offset q) 0 then qNew
    else qNew ++ sprintf (offsetQuery qs) [FInt (Offset q)]
  else qNew.

(* ------------------------------------------------------------------ *)
(** ** The result stream of [RawQuery]

    A cursor is the sequence of its rows as [rows.Scan(&key, &out)] sees
    them: each either scans to a (key, value) pair or fails. *)

Inductive RowScan :=
| ScanRow (key : string) (out : bytes)
| ScanFail (e : error).

Definition Rows := list RowScan.

Definition empty_entry : Entry := {| e_Key := ""; e_Value := []; e_Size := 0 |}.

(** The body of the iterator's [Next] once [rows.Next()] has returned true. *)
Definition next_row (q : Query) (r : RowScan) : Result * bool :=
  match r with
  | ScanFail e => ({| r_Entry := empty_entry; r_Error := Some e |}, false)
  | ScanRow key out =>
      let entry := {| e_Key := key;
                      e_Value := if KeysOnly q then [] else out;
                      e_Size := if ReturnsSizes q then Z.of_nat (List.length out) else 0 |} in
      ({| r_Entry := entry; r_Error := None |}, true)
  end.

(** [dsq.ResultsFromIterator]: its consumers ([NextSync], [Rest], the
    channel of [Next]) call the iterator until it answers [false]; a result
    returned together with [false] is the end of the stream, not an element
    of it. *)
Fixpoint ResultsFromIterator (q : Query) (rows : Rows) : list Result :=
  match rows with
  | [] => []
  | r :: rest =>
      let '(res, ok) := next_row q r in
      if ok then res :: ResultsFromIterator q rest else []
  end.

(** The executor's [db.Query]: a cursor or an error. *)
Definition Executor := string -> Rows + error.

Definition RawQuery (run : Executor) (qs : Queries) (q : Query) : list Result + error :=
  match run (QueryWithParams_sql qs q) with
  | inr e => inr e
  | inl rows => inl (ResultsFromIterator q rows)
  end.

(* ------------------------------------------------------------------ *)
(** ** go-datastore's naive post-processing *)

Definition NaiveFilter (rs : list Result) (f : Filter) : list Result :=
  List.filter (fun r => match r_Error r with Some _ => true | None => f (r_Entry r) end) rs.

(** [dsq.Less]: the first order that tells the entries apart decides,
    ties are broken by key. *)
Fixpoint Less (orders : list Order) (a b : Entry) : bool :=
  match orders with
  | [] => String.ltb (e_Key a) (e_Key b)
  | cmp :: rest =>
      let c := cmp a b in
      if Z.eqb c (-1) then true
      else if Z.eqb c 1 then false
      else Less rest a b
  end.

Fixpoint insert_by (lt : Entry -> Entry -> bool) (e : Entry) (es : list Entry) : list Entry :=
  match es with
  | [] => [e]
  | x :: xs => if lt x e then x :: insert_by lt e xs else e :: x :: xs
  end.

(** [dsq.Sort] ([sort.Slice] with [Less]). *)
Definition Sort (orders : list Order) (es : list Entry) : list Entry :=
  fold_right (insert_by (Less orders)) [] es.

(** [dsq.NaiveOrder]: errors pass first, the entries follow sorted. *)
Definition NaiveOrder (rs : list Result) (orders : list Order) : list Result :=
  match orders with
  | [] => rs
  | _ =>
      let errs := List.filter (fun r => match r_Error r with Some _ => true | None => false end) rs in
      let es := map r_Entry (List.filter (fun r => match r_Error r with Some _ => false | None => true end) rs) in
      errs ++ map (fun e => {| r_Entry := e; r_Error := None |}) (Sort orders es)
  end%list.

Definition NaiveOffset (rs : list Result) (offset : Z) : list Result := skipn (Z.to_nat offset) rs.
Definition NaiveLimit (rs : list Result) (limit : Z) : list Result := firstn (Z.to_nat limit) rs.

(* ------------------------------------------------------------------ *)
(** ** [Datastore.Query] *)

Definition Datastore_Query (run : Executor) (qs : Queries) (q : Query) : list Result + error :=
  match RawQuery run qs q with
  | inr e => inr e
  | inl raw =>
      let raw := fold_left NaiveFilter (Filters q) raw in
      let raw := NaiveOrder raw (Orders q) in
      let raw :=
        if negb (no_naive q) then
          let raw := if Z.eqb (Offset q) 0 then raw else NaiveOffset raw (Offset q) in
          if Z.eqb (Limit q) 0 then raw else NaiveLimit raw (Limit q)
        else raw in
      inl raw
  end.

(* ------------------------------------------------------------------ *)
(** ** How the engine reads the spliced prefix pattern

    Postgres [LIKE]: [%] matches any sequence, [_] any one character and
    the default escape character [\] makes the next character literal. *)

Fixpoint like_match (p s : string) {struct p} : bool :=
  match p with
  | EmptyString => match s with EmptyString => true | _ => false end
  | String c p' =>
      if Ascii.eqb c "%" then
        (fix star (s : string) : bool :=
           like_match p' s || match s with EmptyString => false | String _ s' => star s' end) s
      else if Ascii.eqb c "_" then
        match s with EmptyString => false | String _ s' => like_match p' s' end
      else if Ascii.eqb c "\" then
        match p' with
        | EmptyString => false  (* a pattern may not end with the escape character *)
        | String e p'' =>
            match s with
            | String x s' => Ascii.eqb x e && like_match p'' s'
            | EmptyString => false
            end
        end
      else
        match s with
        | String x s' => Ascii.eqb x c && like_match p' s'
        | EmptyString => false
        end
  end.

(** SQLite [GLOB] ([patternCompare] with [matchAll = '*'], [matchOne = '?'],
    [matchSet = '[']). The members of a bracket expression after its
    optional [^] and leading [\]]: ranges [lo-hi] and single characters. *)
Fixpoint glob_set_items (c : ascii) (prior : option ascii) (seen : bool) (p : string)
  : option (bool * string) :=
  match p with
  | EmptyString => None
  | String c2 p' =>
      if Ascii.eqb c2 "]" then Some (seen, p')
      else
        let literal := glob_set_items c (Some c2) (seen || Ascii.eqb c c2) p' in
        if Ascii.eqb c2 "-" then
          match prior, p' with
          | Some lo, String hi p'' =>
              if Ascii.eqb hi "]" then literal
              else glob_set_items c None
                     (seen || (N.leb (N_of_ascii lo) (N_of_ascii c)
                               && N.leb (N_of_ascii c) (N_of_ascii hi))) p''
          | _, _ => literal
          end
        else literal
  end.

(** A bracket expression, [p] being the pattern after [[]: whether [c]
    belongs to the set, and the pattern after the closing bracket. *)
Definition glob_set (c : ascii) (p : string) : option (bool * string) :=
  let '(invert, p) :=
    match p with
    | String x p' => if Ascii.eqb x "^" then (true, p') else (false, p)
    | EmptyString => (false, p)
    end in
  let '(seen, p) :=
    match p with
    | String x p' => if Ascii.eqb x "]" then (Ascii.eqb c "]", p') else (false, p)
    | EmptyString => (false, p)
    end in
  match glob_set_items c None seen p with
  | Some (seen, rest) => Some (xorb seen invert, rest)
  | None => None
  end.

Fixpoint glob_go (fuel : nat) (p s : string) : bool :=
  match fuel with
  | O => false
  | S fuel' =>
      match p with
      | EmptyString => match s with EmptyString => true | _ => false end
      | String c p' =>
          if Ascii.eqb c "*" then
            (fix star (s : string) : bool :=
               glob_go fuel' p' s || match s with EmptyString => false | String _ s' => star s' end) s
          else
            match s with
            | EmptyString => false
            | String x s' =>
                if Ascii.eqb c "?" then glob_go fuel' p' s'
                else if Ascii.eqb c "[" then
                  match glob_set x p' with
                  | Some (true, rest) => glob_go fuel' rest s'
                  | _ => false
                  end
                else Ascii.eqb x c && glob_go fuel' p' s'
            end
      end
  end.

(** Every step consumes a pattern character, so the pattern length bounds
    the recursion. *)
Definition glob_match (p s : string) : bool := glob_go (S (String.length p)) p s.

(* ------------------------------------------------------------------ *)
(** ** The executor: [database/sql] over a SQL engine

    The table is an association list with unique keys. The engine reads the
    dialect's point statements with their SQL meaning; a fault oracle says
    which calls the driver or the engine reject (lost connection,
    constraint violation, ...). Every call on the [database/sql] API is
    recorded, newest first. *)

Definition Table := list (string * bytes).

Fixpoint tbl_lookup (k : string) (t : Table) : option bytes :=
  match t with
  | [] => None
  | (k', v) :: t' => if String.eqb k' k then Some v else tbl_lookup k t'
  end.

Definition tbl_delete (k : string) (t : Table) : Table :=
  List.filter (fun '(k', _) => negb (String.eqb k' k)) t.

(** Both upserts ([ON CONFLICT (key) DO UPDATE] and [INSERT OR REPLACE])
    leave one row for the key, holding the new data. *)
Definition tbl_upsert (k : string) (v : bytes) (t : Table) : Table :=
  (k, v) :: tbl_delete k t.

Inductive SqlVal :=
| VText (s : string)
| VBytes (b : bytes)
| VBool (b : bool)
| VInt (z : Z).

Inductive Call :=
| CExec (st : string) (args : list SqlVal)      (* db.Exec *)
| CQueryRow (st : string) (args : list SqlVal)  (* db.QueryRow *)
| CBegin                                        (* db.Begin *)
| CTxExec (st : string) (args : list SqlVal)    (* tx.Exec *)
| CCommit                                       (* tx.Commit *)
| CRollback.                                    (* tx.Rollback *)

Definition Fault := Call -> option error.

Definition no_fault : Fault := fun _ => None.

Record DB := {
  db_table : Table;
  db_log : list Call
}.

Definition log_call (c : Call) (db : DB) : DB :=
  {| db_table := db_table db; db_log := c :: db_log db |}.

Definition set_table (t : Table) (db : DB) : DB :=
  {| db_table := t; db_log := db_log db |}.

Inductive StmtKind := SDelete | SExists | SGet | SPut | SGetSize | SOther.

Definition classify (qs : Queries) (st : string) : StmtKind :=
  if String.eqb st (deleteQuery qs) then SDelete
  else if String.eqb st (existsQuery qs) then SExists
  else if String.eqb st (getQuery qs) then SGet
  else if String.eqb st (putQuery qs) then SPut
  else if String.eqb st (getSizeQuery qs) then SGetSize
  else SOther.

(** A write statement: the number of affected rows and the new table. *)
Definition eval_exec (qs : Queries) (st : string) (args : list SqlVal) (t : Table)
  : option (Z * Table) :=
  match classify qs st, args with
  | SPut, [VText k; VBytes v] => Some (1%Z, tbl_upsert k v t)
  | SDelete, [VText k] =>
      match tbl_lookup k t with
      | Some _ => Some (1%Z, tbl_delete k t)
      | None => Some (0%Z, t)
      end
  | _, _ => None
  end.

(** A point query: the rows it returns. [exists(...)] always returns one row;
    [octet_length] and [length] of a blob count its bytes. *)
Definition eval_query (qs : Queries) (st : string) (args : list SqlVal) (t : Table)
  : option (list (list SqlVal)) :=
  match classify qs st, args with
  | SGet, [VText k] =>
      Some (match tbl_lookup k t with Some v => [[VBytes v]] | None => [] end)
  | SExists, [VText k] =>
      Some [[VBool (match tbl_lookup k t with Some _ => true | None => false end)]]
  | SGetSize, [VText k] =>
      Some (match tbl_lookup k t with Some v => [[VInt (Z.of_nat (List.length v))]] | None => [] end)
  | _, _ => None
  end.

Definition ErrRejected : error := ErrDb "statement rejected by the engine".

(** [db.Exec]: the [sql.Result] is modelled by what its [RowsAffected]
    returns. *)
Definition db_Exec (f : Fault) (qs : Queries) (st : string) (args : list SqlVal) (db : DB)
  : ((Z * option error) * option error) * DB :=
  let c := CExec st args in
  let db := log_call c db in
  match f c with
  | Some e => ((0%Z, None), Some e, db)
  | None =>
      match eval_exec qs st args (db_table db) with
      | Some (n, t) => ((n, None), None, set_table t db)
      | None => ((0%Z, None), Some ErrRejected, db)
      end
  end.

(** [*sql.Row]: the error of the query, or its rows. *)
Inductive Row :=
| RowErr (e : error)
| RowSet (rows : list (list SqlVal)).

Definition db_QueryRow (f : Fault) (qs : Queries) (st : string) (args : list SqlVal) (db : DB)
  : Row * DB :=
  let c := CQueryRow st args in
  let db := log_call c db in
  match f c with
  | Some e => (RowErr e, db)
  | None =>
      match eval_query qs st args (db_table db) with
      | Some rows => (RowSet rows, db)
      | None => (RowErr ErrRejected, db)
      end
  end.

(** [Row.Scan] into one destination: the query's error, [sql.ErrNoRows]
    without a row, or the converted first column (the destination keeps
    its zero value on error). *)
Definition row_scan {A : Type} (zero : A) (conv : SqlVal -> option A) (r : Row) : A * option error :=
  match r with
  | RowErr e => (zero, Some e)
  | RowSet [] => (zero, Some ErrNoRows)
  | RowSet ([x] :: _) =>
      match conv x with
      | Some a => (a, None)
      | None => (zero, Some (ErrDb "sql: Scan error: unsupported conversion"))
      end
  | RowSet (_ :: _) => (zero, Some (ErrDb "sql: expected 1 destination argument in Scan"))
  end.

Definition conv_bytes (x : SqlVal) : option bytes :=
  match x with VBytes b => Some b | VText s => Some (list_byte_of_string s) | _ => None end.
Definition conv_bool (x : SqlVal) : option bool :=
  match x with VBool b => Some b | VInt 0 => Some false | VInt 1 => Some true | _ => None end.
Definition conv_int (x : SqlVal) : option Z :=
  match x with VInt z => Some z | _ => None end.

(* ------------------------------------------------------------------ *)
(** ** The record store: [Datastore]'s point operations *)

Module Datastore.

Definition Delete (f : Fault) (qs : Queries) (key : string) (db : DB) : option error * DB :=
  let '(result, err, db) := db_Exec f qs (deleteQuery qs) [VText key] db in
  match err with
  | Some e => (Some e, db)
  | None =>
      let '(rows, err) := result in
      match err with
      | Some e => (Some e, db)
      | None => if Z.eqb rows 0 then (Some ErrNotFound, db) else (None, db)
      end
  end.

Definition Get (f : Fault) (qs : Queries) (key : string) (db : DB) : (bytes * option error) * DB :=
  let '(row, db) := db_QueryRow f qs (getQuery qs) [VText key] db in
  let '(out, err) := row_scan [] conv_bytes row in
  match err with
  | Some ErrNoRows => (([], Some ErrNotFound), db)
  | None => ((out, None), db)
  | Some e => (([], Some e), db)
  end.

Definition Has (f : Fault) (qs : Queries) (key : string) (db : DB) : (bool * option error) * DB :=
  let '(row, db) := db_QueryRow f qs (existsQuery qs) [VText key] db in
  let '(exists_, err) := row_scan false conv_bool row in
  match err with
  | Some ErrNoRows => ((exists_, None), db)
  | None => ((exists_, None), db)
  | Some e => ((exists_, Some e), db)
  end.

Definition Put (f : Fault) (qs : Queries) (key : string) (value : bytes) (db : DB) : option error * DB :=
  let '(_, err, db) := db_Exec f qs (putQuery qs) [VText key; VBytes value] db in
  match err with
  | Some e => (Some e, db)
  | None => (None, db)
  end.

Definition Sync (key : string) (db : DB) : option error * DB := (None, db).

Definition GetSize (f : Fault) (qs : Queries) (key : string) (db : DB) : (Z * option error) * DB :=
  let '(row, db) := db_QueryRow f qs (getSizeQuery qs) [VText key] db in
  let '(size, err) := row_scan 0%Z conv_int row in
  match err with
  | Some ErrNoRows => ((-1)%Z, Some ErrNotFound, db)
  | None => (size, None, db)
  | Some e => (0%Z, Some e, db)
  end.

End Datastore.

(* ------------------------------------------------------------------ *)
(** ** Transactions and the batch

    A [*sql.Tx] buffers the writes executed on it; [Commit] applies them to
    the table at once. Whether [Commit] succeeds or fails, the transaction
    is done afterwards, and a done transaction answers [sql.ErrTxDone]. *)

Record Tx := {
  tx_ops : list (string * list SqlVal);  (* oldest first *)
  tx_done : bool
}.

Definition apply_ops (qs : Queries) (ops : list (string * list SqlVal)) (t : Table) : Table :=
  fold_left (fun t '(st, args) =>
               match eval_exec qs st args t with Some (_, t') => t' | None => t end) ops t.

Definition tx_done_now : Tx := {| tx_ops := []; tx_done := true |}.

Definition tx_Exec (f : Fault) (qs : Queries) (tx : Tx) (st : string) (args : list SqlVal) (db : DB)
  : option error * Tx * DB :=
  let c := CTxExec st args in
  let db := log_call c db in
  if tx_done tx then (Some ErrTxDone, tx, db)
  else match f c with
       | Some e => (Some e, tx, db)
       | None =>
           match eval_exec qs st args (apply_ops qs (tx_ops tx) (db_table db)) with
           | Some _ => (None, {| tx_ops := tx_ops tx ++ [(st, args)]; tx_done := false |}, db)
           | None => (Some ErrRejected, tx, db)
           end
       end.

Definition tx_Commit (f : Fault) (qs : Queries) (tx : Tx) (db : DB) : option error * Tx * DB :=
  let db := log_call CCommit db in
  if tx_done tx then (Some ErrTxDone, tx, db)
  else match f CCommit with
       | Some e => (Some e, tx_done_now, db)
       | None => (None, tx_done_now, set_table (apply_ops qs (tx_ops tx) (db_table db)) db)
       end.

Definition tx_Rollback (f : Fault) (tx : Tx) (db : DB) : option error * Tx * DB :=
  let db := log_call CRollback db in
  if tx_done tx then (Some ErrTxDone, tx, db)
  else (f CRollback, tx_done_now, db).

(** Outcome of Go code that may panic (a method called on a nil pointer). *)
Inductive Go (A : Type) :=
| Ret (a : A)
| Panic (msg : string).
Arguments Ret {A} a.
Arguments Panic {A} msg.

Module batch.

Record batch := {
  queries : Queries;
  txn : option Tx
}.

Definition set_txn (b : batch) (t : option Tx) : batch :=
  {| queries := queries b; txn := t |}.

(** [Datastore.Batch] *)
Definition new (qs : Queries) : batch := {| queries := qs; txn := None |}.

Definition GetTransaction (f : Fault) (b : batch) (db : DB) : (option Tx * option error) * batch * DB :=
  match txn b with
  | Some t => ((Some t, None), b, db)
  | None =>
      let db := log_call CBegin db in
      match f CBegin with
      | Some e => ((None, Some e), b, db)
      | None =>
          let t := {| tx_ops := []; tx_done := false |} in
          ((Some t, None), set_txn b (Some t), db)
      end
  end.

(** [_ = b.txn.Rollback()] *)
Definition rollback_txn (f : Fault) (b : batch) (db : DB) : Go (batch * DB) :=
  match txn b with
  | None => Panic "invalid memory address or nil pointer dereference"
  | Some t => let '(_, t, db) := tx_Rollback f t db in Ret (set_txn b (Some t), db)
  end.

(** The common body of [Put] and [Delete]. *)
Definition exec_in_txn (f : Fault) (st : string) (args : list SqlVal) (b : batch) (db : DB)
  : Go (option error * batch * DB) :=
  match GetTransaction f b db with
  | ((Some t, None), b, db) =>
      match tx_Exec f (queries b) t st args db with
      | (Some e, t, db) =>
          match rollback_txn f (set_txn b (Some t)) db with
          | Ret (b, db) => Ret (Some e, b, db)
          | Panic m => Panic m
          end
      | (None, t, db) => Ret (None, set_txn b (Some t), db)
      end
  | ((_, err), b, db) =>
      match rollback_txn f b db with
      | Ret (b, db) => Ret (err, b, db)
      | Panic m => Panic m
      end
  end.

Definition Put (f : Fault) (key : string) (val : bytes) (b : batch) (db : DB)
  : Go (option error * batch * DB) :=
  exec_in_txn f (putQuery (queries b)) [VText key; VBytes val] b db.

Definition Delete (f : Fault) (key : string) (b : batch) (db : DB)
  : Go (option error * batch * DB) :=
  exec_in_txn f (deleteQuery (queries b)) [VText key] b db.

Definition Commit (f : Fault) (b : batch) (db : DB) : option error * batch * DB :=
  match txn b with
  | None => (Some ErrNoTransaction, b, db)
  | Some t =>
      match tx_Commit f (queries b) t db with
      | (Some e, t, db) =>
          let '(_, t, db) := tx_Rollback f t db in
          (Some e, set_txn b (Some t), db)
      | (None, t, db) => (None, set_txn b (Some t), db)
      end
  end.

(** A client that issues a sequence of writes and stops at the first
    error or panic. *)
Inductive Op :=
| OpPut (key : string) (val : bytes)
| OpDelete (key : string).

Definition run_op (f : Fault) (o : Op) (b : batch) (db : DB) : Go (option error * batch * DB) :=
  match o with
  | OpPut k v => Put f k v b db
  | OpDelete k => Delete f k b db
  end.

Fixpoint run (f : Fault) (os : list Op) (b : batch) (db : DB) : Go (option error * batch * DB) :=
  match os with
  | [] => Ret (None, b, db)
  | o :: os' =>
      match run_op f o b db with
      | Ret (None, b, db) => run f os' b db
      | r => r
      end
  end.

(** The statement and arguments a write executes. *)
Definition op_stmt (qs : Queries) (o : Op) : string * list SqlVal :=
  match o with
  | OpPut k v => (putQuery qs, [VText k; VBytes v])
  | OpDelete k => (deleteQuery qs, [VText k])
  end.

End batch.

(* ------------------------------------------------------------------ *)
(** ** Auxiliary definitions of the statements below *)

(** The limit and offset fragments, each present only when set. *)
Definition limit_offset_sql (qs : Queries) (q : Query) : string :=
  (if Z.eqb (Limit q) 0 then "" else sprintf (limitQuery qs) [FInt (Limit q)])
  ++ (if Z.eqb (Offset q) 0 then "" else sprintf (offsetQuery qs) [FInt (Offset q)]).

(** The naive filtering and ordering of a raw result sequence. *)
Definition naive_filter_order (q : Query) (raw : list Result) : list Result :=
  NaiveOrder (fold_left NaiveFilter (Filters q) raw) (Orders q).

(** The query has no effective prefix: empty, or the root key once cleaned. *)
Definition prefix_is_root (q : Query) : bool :=
  String.eqb (Prefix q) "" || String.eqb (NewKey (Prefix q)) "/".

(** The prefix fragment of each dialect, with the string literal that
    holds the pattern written out. *)
Definition prefix_fragment (d : Dialect) (pat : string) : string :=
  match d with
  | PG => " WHERE key LIKE '" ++ pat ++ "%' ORDER BY key"
  | SQLITE => " WHERE key GLOB '" ++ pat ++ "*' ORDER BY key"
  end.

(** Whether [key] satisfies the prefix fragment spliced with [pat]. *)
Definition pattern_matches (d : Dialect) (pat key : string) : bool :=
  match d with
  | PG => like_match (pat ++ "%") key
  | SQLITE => glob_match (pat ++ "*") key
  end.

Fixpoint no_char_in (bad : list ascii) (s : string) : bool :=
  match s with
  | EmptyString => true
  | String c s' => negb (existsb (Ascii.eqb c) bad) && no_char_in bad s'
  end.

(** A prefix the dialect reads literally inside the quoted pattern: no
    wildcard, escape or bracket character and no quote. *)
Definition literal_safe (d : Dialect) (s : string) : bool :=
  no_char_in (match d with
              | PG => ["%"; "_"; "\"; "'"]%char
              | SQLITE => ["*"; "?"; "["; "'"]%char
              end) s.

(** The batch of a client that has written without error so far: its
    transaction is not opened yet, or is open and holds the writes [acc]. *)
Definition open_with (qs : Queries) (acc : list (string * list SqlVal)) (b : batch.batch) : Prop :=
  batch.queries b = qs
  /\ (batch.txn b = Some {| tx_ops := acc; tx_done := false |}
      \/ (batch.txn b = None /\ acc = [])).

(** The same query with another prefix. *)
Definition with_prefix (q : Query) (p : string) : Query := {|
  Prefix := p; Filters := Filters q; Orders := Orders q;
  Limit := Limit q; Offset := Offset q; KeysOnly := KeysOnly q; ReturnsSizes := ReturnsSizes q
|}.

(** A result passes every filter of the list. *)
Definition passes (fs : list Filter) (r : Result) : bool :=
  forallb (fun flt => flt (r_Entry r)) fs.

(** The characters [hex.EncodeToString] writes. *)
Definition lower_hex_digit (c : ascii) : bool :=
  existsb (Ascii.eqb c) (list_ascii_of_string "0123456789abcdef").

Fixpoint all_chars (p : ascii -> bool) (s : string) : bool :=
  match s with
  | EmptyString => true
  | String c s' => p c && all_chars p s'
  end.

(** An environment in which opening, pinging and executing all succeed. *)
Definition accepts_all (env : Env) : Prop :=
  (forall drv dsn, env_open env drv dsn = None)
  /\ (forall drv dsn, env_ping env drv dsn = None)
  /\ (forall drv dsn st, env_exec env drv dsn st = None).

(** The calls that open a transaction. *)
Definition is_begin (c : Call) : bool :=
  match c with CBegin => true | _ => false end.

Definition count_begins (log : list Call) : nat := List.length (List.filter is_begin log).

(* ================================================================== *)
(** * Properties *)

Lemma string_app_assoc (a b c : string) : (a ++ b) ++ c = a ++ (b ++ c).
Proof. induction a as [|ch a IH]; simpl; [reflexivity | now rewrite IH]. Qed.

Lemma string_app_empty_r (a : string) : a ++ "" = a.
Proof. induction a as [|ch a IH]; simpl; [reflexivity | now rewrite IH]. Qed.

Lemma string_length_app (a b : string) :
  String.length (a ++ b) = (String.length a + String.length b)%nat.
Proof. induction a as [|ch a IH]; simpl; [reflexivity | now rewrite IH]. Qed.

Lemma QueryWithParams_sql_split (qs : Queries) (q : Query) :
  QueryWithParams_sql qs q =
  QueryWithParams_sql qs (set_limit_offset q 0 0)
  ++ (if no_naive q then limit_offset_sql qs q else "").
Proof.
  unfold QueryWithParams_sql, limit_offset_sql, no_naive, set_limit_offset; simpl.
  destruct (Filters q), (Orders q);
    try (rewrite string_app_empty_r; reflexivity).
  destruct (Z.eqb (Limit q) 0), (Z.eqb (Offset q) 0); simpl;
    rewrite ?string_app_empty_r, ?string_app_assoc; reflexivity.
Qed.

(** C1. The limit and offset reach the SQL text only when the query has
    neither filters nor orders, and then only the nonzero ones. Otherwise
    the SQL text is the one of the same query without limit and offset, and
    [Datastore.Query] takes the offset and then the limit of the filtered
    and ordered in-memory sequence. *)
Theorem Query_limit_offset_placement (run : Executor) (qs : Queries) (q : Query) :
  QueryWithParams_sql qs q =
    QueryWithParams_sql qs (set_limit_offset q 0 0)
    ++ (if no_naive q then limit_offset_sql qs q else "")
  /\ Datastore_Query run qs q =
    (if no_naive q then RawQuery run qs q
     else match run (QueryWithParams_sql qs (set_limit_offset q 0 0)) with
          | inr e => inr e
          | inl rows =>
              let rs := naive_filter_order q (ResultsFromIterator q rows) in
              let rs := if Z.eqb (Offset q) 0 then rs else NaiveOffset rs (Offset q) in
              inl (if Z.eqb (Limit q) 0 then rs else NaiveLimit rs (Limit q))
          end).
Proof.
  split; [apply QueryWithParams_sql_split |].
  unfold Datastore_Query, RawQuery, naive_filter_order.
  rewrite (QueryWithParams_sql_split qs q).
  destruct (no_naive q) eqn:Hn.
  - unfold no_naive in Hn.
    destruct (run _) as [rows|e]; [|reflexivity].
    destruct (Filters q), (Orders q); try discriminate; reflexivity.
  - rewrite string_app_empty_r; simpl.
    destruct (run _); reflexivity.
Qed.

(* ------------------------------------------------------------------ *)
(** ** The prefix fragment *)

(** The scenario of the spec: five rows, a filter and a descending order,
    [limit = 1] and [offset = 1]. The SQL carries no limit or offset, and
    the answer is the second row of the ordered sequence ([/d]), not of
    the table order ([/b]). *)
Example Query_deferred_window :
  let by_key_desc : Order := fun a b =>
    if String.ltb (e_Key b) (e_Key a) then (-1)%Z
    else if String.eqb (e_Key a) (e_Key b) then 0%Z else 1%Z in
  let q := {| Prefix := ""; Filters := [fun _ => true]; Orders := [by_key_desc];
              Limit := 1; Offset := 1; KeysOnly := true; ReturnsSizes := false |} in
  let run : Executor := fun sql =>
    if String.eqb sql "SELECT key, data FROM blocks" then
      inl (map (fun k => ScanRow k []) ["/a"; "/b"; "/c"; "/d"; "/e"])
    else inr (ErrDb "unexpected statement") in
  QueryWithParams_sql (Sqlite.NewQueries "blocks") q = "SELECT key, data FROM blocks"
  /\ Datastore_Query run (Sqlite.NewQueries "blocks") q
     = inl [{| r_Entry := {| e_Key := "/d"; e_Value := []; e_Size := 0 |}; r_Error := None |}].
Proof. split; reflexivity. Qed.

Lemma sprintf_prefixQuery (d : Dialect) (tbl x : string) :
  sprintf (prefixQuery (dialect_queries d tbl)) [FStr x] = prefix_fragment d x.
Proof. destruct d; reflexivity. Qed.

Lemma QueryWithParams_sql_no_limit (qs : Queries) (q : Query) :
  QueryWithParams_sql qs (set_limit_offset q 0 0) =
  queryQuery qs
  ++ (if prefix_is_root q then "" else sprintf (prefixQuery qs) [FStr (NewKey (Prefix q) ++ "/")]).
Proof.
  unfold QueryWithParams_sql, prefix_is_root; simpl.
  destruct (String.eqb (Prefix q) "") eqn:He; simpl;
    [| destruct (String.eqb (NewKey (Prefix q)) "/") eqn:Hr; simpl];
    destruct (no_naive _); rewrite ?string_app_empty_r; reflexivity.
Qed.

Lemma eqb_ascii_dec (x c : ascii) :
  Ascii.eqb x c = (if ascii_dec c x then true else false).
Proof.
  destruct (ascii_dec c x) as [->|Hne]; [apply Ascii.eqb_refl|].
  apply Ascii.eqb_neq; congruence.
Qed.

Lemma no_char_in_app (bad : list ascii) (a b : string) :
  no_char_in bad (a ++ b) = no_char_in bad a && no_char_in bad b.
Proof.
  induction a as [|c a IH]; simpl; [reflexivity|].
  rewrite IH, andb_assoc; reflexivity.
Qed.

Lemma like_match_any (s : string) : like_match "%" s = true.
Proof. induction s as [|c s IH]; simpl in *; [reflexivity | exact IH]. Qed.

Lemma like_match_literal (y key : string) :
  no_char_in ["%"; "_"; "\"; "'"]%char y = true ->
  like_match (y ++ "%") key = String.prefix y key.
Proof.
  revert key; induction y as [|c y IH]; intros key Hy.
  - cbn [String.append]; rewrite like_match_any; destruct key; reflexivity.
  - simpl in Hy; apply andb_prop in Hy as [Hc Hy].
    destruct (Ascii.eqb c "%") eqn:E1; [discriminate|].
    destruct (Ascii.eqb c "_") eqn:E2; [discriminate|].
    destruct (Ascii.eqb c "\") eqn:E3; [discriminate|].
    simpl; rewrite E1, E2, E3.
    destruct key as [|x key]; [reflexivity|].
    cbn [String.prefix]; rewrite eqb_ascii_dec; destruct (ascii_dec c x); simpl; [apply IH; exact Hy | reflexivity].
Qed.

Lemma glob_go_any (n : nat) (s : string) : 2 <= n -> glob_go n "*" s = true.
Proof.
  intros Hn; destruct n as [|[|n]]; try lia.
  induction s as [|c s IH]; simpl in *; [reflexivity | exact IH].
Qed.

Lemma glob_go_literal (y key : string) (n : nat) :
  no_char_in ["*"; "?"; "["; "'"]%char y = true ->
  (String.length y + 2 <= n)%nat ->
  glob_go n (y ++ "*") key = String.prefix y key.
Proof.
  revert key n; induction y as [|c y IH]; intros key n Hy Hn.
  - cbn [String.append]; rewrite glob_go_any by (simpl in Hn; lia); destruct key; reflexivity.
  - simpl in Hy; apply andb_prop in Hy as [Hc Hy].
    destruct (Ascii.eqb c "*") eqn:E1; [discriminate|].
    destruct (Ascii.eqb c "?") eqn:E2; [discriminate|].
    destruct (Ascii.eqb c "[") eqn:E3; [discriminate|].
    destruct n as [|n]; [simpl in Hn; lia|].
    simpl; rewrite E1, E2, E3.
    destruct key as [|x key]; [reflexivity|].
    cbn [String.prefix]; rewrite eqb_ascii_dec; destruct (ascii_dec c x); simpl;
      [apply IH; [exact Hy | simpl in Hn; lia] | reflexivity].
Qed.

Lemma get_some_lt (n : nat) (s : string) (c : ascii) :
  String.get n s = Some c -> (n < String.length s)%nat.
Proof.
  revert n; induction s as [|x s IH]; intros [|n] H; simpl in *; try discriminate.
  - lia.
  - apply IH in H; lia.
Qed.

Lemma prefix_slash (p key : string) :
  String.prefix (p ++ "/") key =
  String.prefix p key
  && match String.get (String.length p) key with Some c => Ascii.eqb c "/" | None => false end.
Proof.
  revert key; induction p as [|c p IH]; intros key.
  - destruct key as [|x key]; [reflexivity|].
    cbn [String.append String.prefix String.length String.get].
    rewrite (eqb_ascii_dec x "/").
    destruct (ascii_dec "/" x); [destruct key; reflexivity | reflexivity].
  - destruct key as [|x key]; [reflexivity|].
    cbn [String.append String.prefix String.length String.get].
    destruct (ascii_dec c x); [apply IH | reflexivity].
Qed.

Lemma prefix_slash_ancestor (p key : string) :
  p <> "/" -> String.prefix (p ++ "/") key = IsAncestorOf p key.
Proof.
  intros Hp; unfold IsAncestorOf.
  rewrite prefix_slash.
  destruct (String.eqb p "/") eqn:E; [apply String.eqb_eq in E; contradiction|].
  destruct (String.length key <=? String.length p)%nat eqn:L; [|reflexivity].
  apply Nat.leb_le in L.
  destruct (String.get (String.length p) key) eqn:G; [|apply andb_false_r].
  apply get_some_lt in G; lia.
Qed.

Lemma pattern_matches_literal (d : Dialect) (p key : string) :
  literal_safe d p = true -> p <> "/" ->
  pattern_matches d (p ++ "/") key = IsAncestorOf p key.
Proof.
  intros Hs Hp; rewrite <- prefix_slash_ancestor by exact Hp.
  unfold literal_safe in Hs; destruct d; simpl.
  - apply like_match_literal.
    rewrite no_char_in_app, Hs; reflexivity.
  - unfold glob_match; apply glob_go_literal.
    + rewrite no_char_in_app, Hs; reflexivity.
    + rewrite !string_length_app; simpl; lia.
Qed.

(** C3 (as amended). The SQL text is the bulk select, then the prefix
    fragment unless the prefix is empty or cleans to the root, then the
    limit and offset fragments. The fragment splices the cleaned prefix
    followed by a slash into the quoted pattern; when the prefix holds no
    character the dialect's pattern syntax treats specially, the keys it
    matches are exactly those strictly below the prefix. *)
Theorem QueryWithParams_prefix (d : Dialect) (tbl : string) (q : Query) :
  QueryWithParams_sql (dialect_queries d tbl) q =
    queryQuery (dialect_queries d tbl)
    ++ (if prefix_is_root q then "" else prefix_fragment d (NewKey (Prefix q) ++ "/"))
    ++ (if no_naive q then limit_offset_sql (dialect_queries d tbl) q else "")
  /\ (prefix_is_root q = false -> literal_safe d (NewKey (Prefix q)) = true ->
      forall key : string,
        pattern_matches d (NewKey (Prefix q) ++ "/") key = IsAncestorOf (NewKey (Prefix q)) key).
Proof.
  split.
  - rewrite QueryWithParams_sql_split, QueryWithParams_sql_no_limit, string_app_assoc.
    destruct (prefix_is_root q); [reflexivity|].
    rewrite sprintf_prefixQuery; reflexivity.
  - intros Hr Hs key; apply pattern_matches_literal; [exact Hs|].
    intros E; unfold prefix_is_root in Hr; rewrite E in Hr.
    rewrite orb_true_r in Hr; discriminate.
Qed.

Lemma QueryWithParams_prefix_witness :
  let q := {| Prefix := "a/"; Filters := []; Orders := []; Limit := 0; Offset := 0;
              KeysOnly := false; ReturnsSizes := false |} in
  prefix_is_root q = false /\ literal_safe PG (NewKey (Prefix q)) = true
  /\ pattern_matches PG (NewKey (Prefix q) ++ "/") "/a/1" = IsAncestorOf (NewKey (Prefix q)) "/a/1"
  /\ pattern_matches PG (NewKey (Prefix q) ++ "/") "/ab" = IsAncestorOf (NewKey (Prefix q)) "/ab".
Proof.
  intros q.
  assert (Hr : prefix_is_root q = false) by reflexivity.
  assert (Hs : literal_safe PG (NewKey (Prefix q)) = true) by reflexivity.
  split; [exact Hr | split; [exact Hs | split]];
    apply (proj2 (QueryWithParams_prefix PG "blocks" q) Hr Hs).
Defined.

(** C3 (as stated) fails: the Postgres fragment splices the prefix [/a_]
    unescaped, so [_] matches any character and the key [/ab/1], which is
    not below [/a_], satisfies the fragment. *)
Lemma QueryWithParams_prefix_wildcard_cex :
  let q := {| Prefix := "/a_"; Filters := []; Orders := []; Limit := 0; Offset := 0;
              KeysOnly := false; ReturnsSizes := false |} in
  QueryWithParams_sql (Postgres.NewQueries "blocks") q
    = "SELECT key, data FROM blocks WHERE key LIKE '/a_/%' ORDER BY key"
  /\ prefix_is_root q = false
  /\ pattern_matches PG (NewKey (Prefix q) ++ "/") "/ab/1" = true
  /\ IsAncestorOf (NewKey (Prefix q)) "/ab/1" = false.
Proof. repeat split; reflexivity. Qed.

(* ------------------------------------------------------------------ *)
(** ** The record store *)

Lemma classify_dialect (d : Dialect) (tbl : string) :
  let qs := dialect_queries d tbl in
  classify qs (deleteQuery qs) = SDelete /\ classify qs (existsQuery qs) = SExists
  /\ classify qs (getQuery qs) = SGet /\ classify qs (putQuery qs) = SPut
  /\ classify qs (getSizeQuery qs) = SGetSize.
Proof.
  destruct d; repeat split; unfold classify; simpl; rewrite ?String.eqb_refl; reflexivity.
Qed.

Lemma tbl_lookup_upsert (k k' : string) (v : bytes) (t : Table) :
  tbl_lookup k' (tbl_upsert k v t) = if String.eqb k k' then Some v else tbl_lookup k' t.
Proof.
  unfold tbl_upsert; simpl.
  destruct (String.eqb k k') eqn:E; [reflexivity|].
  induction t as [|[k0 v0] t IH]; simpl; [reflexivity|].
  destruct (String.eqb k0 k) eqn:E0; simpl.
  - apply String.eqb_eq in E0; subst k0; rewrite E; exact IH.
  - destruct (String.eqb k0 k'); [reflexivity | exact IH].
Qed.

Lemma tbl_lookup_delete (k k' : string) (t : Table) :
  tbl_lookup k' (tbl_delete k t) = if String.eqb k k' then None else tbl_lookup k' t.
Proof.
  induction t as [|[k0 v0] t IH]; simpl; [destruct (String.eqb k k'); reflexivity|].
  destruct (String.eqb k0 k) eqn:E0; simpl.
  - apply String.eqb_eq in E0; subst k0.
    destruct (String.eqb k k'); exact IH.
  - rewrite IH; destruct (String.eqb k k') eqn:E; [|reflexivity].
    apply String.eqb_eq in E; subst k'; rewrite E0; reflexivity.
Qed.

(** C5. For a key absent from the table, [Get] and [GetSize] answer
    NotFound, [Has] answers false without error and [Delete] answers
    NotFound, the DELETE itself succeeding with zero affected rows. An
    error of the executor other than [sql.ErrNoRows] comes back unchanged. *)
Theorem absent_key_outcomes (d : Dialect) (tbl : string) (f : Fault) (db : DB) (k : string) :
  tbl_lookup k (db_table db) = None ->
  let qs := dialect_queries d tbl in
  fst (Datastore.Get f qs k db) =
    match f (CQueryRow (getQuery qs) [VText k]) with
    | None | Some ErrNoRows => ([], Some ErrNotFound)
    | Some e => ([], Some e)
    end
  /\ fst (Datastore.Has f qs k db) =
    match f (CQueryRow (existsQuery qs) [VText k]) with
    | None | Some ErrNoRows => (false, None)
    | Some e => (false, Some e)
    end
  /\ fst (Datastore.GetSize f qs k db) =
    match f (CQueryRow (getSizeQuery qs) [VText k]) with
    | None | Some ErrNoRows => ((-1)%Z, Some ErrNotFound)
    | Some e => (0%Z, Some e)
    end
  /\ fst (Datastore.Delete f qs k db) =
    match f (CExec (deleteQuery qs) [VText k]) with
    | None => Some ErrNotFound
    | Some e => Some e
    end
  /\ (f (CExec (deleteQuery qs) [VText k]) = None ->
      fst (db_Exec f qs (deleteQuery qs) [VText k] db) = ((0%Z, None), None)).
Proof.
  intros Hk qs.
  destruct (classify_dialect d tbl) as (Cd & Ce & Cg & _ & Cs); fold qs in Cd, Ce, Cg, Cs.
  unfold Datastore.Get, Datastore.Has, Datastore.GetSize, Datastore.Delete,
    db_QueryRow, db_Exec, eval_query, eval_exec.
  rewrite Cd, Ce, Cg, Cs; simpl db_table; rewrite Hk.
  repeat split.
  - destruct (f (CQueryRow (getQuery qs) [VText k])) as [[]|]; reflexivity.
  - destruct (f (CQueryRow (existsQuery qs) [VText k])) as [[]|]; reflexivity.
  - destruct (f (CQueryRow (getSizeQuery qs) [VText k])) as [[]|]; reflexivity.
  - destruct (f (CExec (deleteQuery qs) [VText k])); reflexivity.
  - intros ->; reflexivity.
Qed.

Lemma absent_key_outcomes_witness :
  let db := {| db_table := [("/a", [Byte.x01])]; db_log := [] |} in
  tbl_lookup "/b" (db_table db) = None
  /\ fst (Datastore.Get no_fault (dialect_queries SQLITE "blocks") "/b" db) = ([], Some ErrNotFound).
Proof.
  intros db.
  assert (H : tbl_lookup "/b" (db_table db) = None) by reflexivity.
  split; [exact H|].
  exact (proj1 (absent_key_outcomes SQLITE "blocks" no_fault db "/b" H)).
Defined.

(** C6. Under either dialect, [Put(k, v1)] then [Get(k)] yields [v1], and
    [Put(k, v1)], [Put(k, v2)], [Get(k)] yields [v2], no call reporting an
    error, whenever the executor runs these statements. *)
Theorem put_get_last_write_wins (d : Dialect) (tbl : string) (f : Fault) (db : DB)
    (k : string) (v1 v2 : bytes) :
  let qs := dialect_queries d tbl in
  f (CExec (putQuery qs) [VText k; VBytes v1]) = None ->
  f (CExec (putQuery qs) [VText k; VBytes v2]) = None ->
  f (CQueryRow (getQuery qs) [VText k]) = None ->
  let db1 := snd (Datastore.Put f qs k v1 db) in
  let db2 := snd (Datastore.Put f qs k v2 db1) in
  fst (Datastore.Put f qs k v1 db) = None
  /\ fst (Datastore.Get f qs k db1) = (v1, None)
  /\ fst (Datastore.Put f qs k v2 db1) = None
  /\ fst (Datastore.Get f qs k db2) = (v2, None).
Proof.
  intros qs H1 H2 H3 db1 db2.
  destruct (classify_dialect d tbl) as (_ & _ & Cg & Cp & _); fold qs in Cg, Cp.
  subst db1 db2.
  unfold Datastore.Put, Datastore.Get, db_Exec, db_QueryRow, eval_exec, eval_query.
  do 4 (rewrite ?H1, ?H2, ?H3, ?Cp, ?Cg; simpl).
  rewrite ?tbl_lookup_upsert, ?String.eqb_refl; simpl.
  repeat split.
Qed.

Lemma put_get_last_write_wins_witness :
  let qs := dialect_queries PG "blocks" in
  let db := {| db_table := []; db_log := [] |} in
  no_fault (CExec (putQuery qs) [VText "/x"; VBytes [Byte.x68]]) = None
  /\ fst (Datastore.Get no_fault qs "/x"
            (snd (Datastore.Put no_fault qs "/x" [Byte.x69]
                    (snd (Datastore.Put no_fault qs "/x" [Byte.x68] db))))) = ([Byte.x69], None).
Proof.
  intros qs db; split; [reflexivity|].
  exact (proj2 (proj2 (proj2
    (put_get_last_write_wins PG "blocks" no_fault db "/x" [Byte.x68] [Byte.x69]
       eq_refl eq_refl eq_refl)))).
Defined.

(** C10. [Sync] makes no executor call and changes nothing. *)
Theorem Sync_noop (key : string) (db : DB) : Datastore.Sync key db = (None, db).
Proof. reflexivity. Qed.

(* ------------------------------------------------------------------ *)
(** ** The batch *)





Lemma exec_in_txn_ok (f : Fault) (qs : Queries) acc (b : batch.batch) (db : DB) st args
    (b' : batch.batch) (db' : DB) :
  open_with qs acc b ->
  batch.exec_in_txn f st args b db = Ret (None, b', db') ->
  open_with qs (acc ++ [(st, args)]) b' /\ db_table db' = db_table db.
Proof.
  intros [Hq [Ht | [Ht ->]]]; unfold batch.exec_in_txn, batch.GetTransaction; rewrite Ht.
  - unfold tx_Exec; simpl.
    destruct (f (CTxExec st args)); simpl.
    + unfold batch.rollback_txn; simpl; discriminate.
    + destruct (eval_exec _ _ _ _) as [[n t']|]; simpl.
      * intros H; inversion H; subst b' db'; split; [|reflexivity].
        split; [exact Hq | left; reflexivity].
      * unfold batch.rollback_txn; simpl; discriminate.
  - destruct (f CBegin); simpl.
    + unfold batch.rollback_txn; rewrite Ht; discriminate.
    + unfold tx_Exec; simpl.
      destruct (f (CTxExec st args)); simpl.
      * discriminate.
      * destruct (eval_exec _ _ _ _) as [[n t']|]; simpl.
        -- intros H; inversion H; subst b' db'; split; [|reflexivity].
           split; [exact Hq | left; reflexivity].
        -- discriminate.
Qed.

Lemma exec_in_txn_fail (f : Fault) (qs : Queries) acc (b : batch.batch) (db : DB) st args (e : error) :
  open_with qs acc b ->
  f CBegin = None ->
  f (CTxExec st args) = Some e ->
  exists b' db', batch.exec_in_txn f st args b db = Ret (Some e, b', db')
    /\ db_table db' = db_table db
    /\ batch.txn b' = Some tx_done_now /\ batch.queries b' = qs.
Proof.
  intros [Hq [Ht | [Ht ->]]] Hb He; unfold batch.exec_in_txn, batch.GetTransaction; rewrite Ht.
  - unfold tx_Exec; simpl; rewrite He; simpl.
    do 2 eexists; split; [reflexivity | repeat split; assumption].
  - rewrite Hb; unfold tx_Exec; simpl; rewrite He; simpl.
    do 2 eexists; split; [reflexivity | repeat split; assumption].
Qed.

Lemma run_ok (f : Fault) (qs : Queries) (os : list batch.Op) :
  forall acc b db b' db',
  open_with qs acc b ->
  batch.run f os b db = Ret (None, b', db') ->
  open_with qs (acc ++ map (batch.op_stmt qs) os) b' /\ db_table db' = db_table db.
Proof.
  induction os as [|o os IH]; intros acc b db b' db' Hw Hr; simpl in Hr.
  - inversion Hr; subst; rewrite app_nil_r; split; [exact Hw | reflexivity].
  - destruct (batch.run_op f o b db) as [[[[e|] b1] db1]|m] eqn:Ho; try discriminate.
    assert (Hs : open_with qs (acc ++ [batch.op_stmt qs o]) b1 /\ db_table db1 = db_table db).
    { destruct Hw as [Hq Hw'].
      destruct o; simpl in Ho; unfold batch.Put, batch.Delete in Ho; rewrite Hq in Ho;
        exact (exec_in_txn_ok f qs acc b db _ _ b1 db1 (conj Hq Hw') Ho). }
    destruct Hs as [Hs Ht].
    destruct (IH _ _ _ _ _ Hs Hr) as [Hw' Ht'].
    rewrite <- app_assoc in Hw'; split; [exact Hw' | congruence].
Qed.

Lemma Commit_done (f : Fault) (b : batch.batch) (db : DB) :
  batch.txn b = Some tx_done_now ->
  exists db', batch.Commit f b db = (Some ErrTxDone, b, db') /\ db_table db' = db_table db.
Proof.
  intros Ht; destruct b as [q t]; simpl in Ht; subst t.
  eexists; split; reflexivity.
Qed.

(** C2. A write of the batch that the executor rejects rolls the
    transaction back and returns that very error: the table keeps its
    contents from before the batch, and a later [Commit] cannot publish
    the earlier writes. A batch whose writes all succeeded publishes them
    all in one step when its commit succeeds, and none before. *)
Theorem batch_atomicity (f : Fault) (qs : Queries) (db : DB) (os : list batch.Op)
    (b1 : batch.batch) (db1 : DB) :
  f CBegin = None ->
  batch.run f os (batch.new qs) db = Ret (None, b1, db1) ->
  (forall (o : batch.Op) (e : error),
     f (CTxExec (fst (batch.op_stmt qs o)) (snd (batch.op_stmt qs o))) = Some e ->
     exists b2 db2,
       batch.run_op f o b1 db1 = Ret (Some e, b2, db2)
       /\ db_table db2 = db_table db
       /\ exists db3, batch.Commit f b2 db2 = (Some ErrTxDone, b2, db3) /\ db_table db3 = db_table db)
  /\ db_table db1 = db_table db
  /\ (os <> [] -> f CCommit = None ->
      exists b3, batch.Commit f b1 db1
        = (None, b3, {| db_table := apply_ops qs (map (batch.op_stmt qs) os) (db_table db);
                        db_log := CCommit :: db_log db1 |})).
Proof.
  intros Hb Hr.
  assert (H0 : open_with qs [] (batch.new qs)) by (split; [reflexivity | right; split; reflexivity]).
  destruct (run_ok f qs os [] _ db b1 db1 H0 Hr) as [[Hq Hw] Ht]; simpl in Hw.
  split; [|split; [exact Ht|]].
  - intros o e He.
    assert (Hw1 : open_with qs (map (batch.op_stmt qs) os) b1) by (split; assumption).
    destruct (exec_in_txn_fail f qs _ b1 db1 _ _ e Hw1 Hb He) as (b2 & db2 & Hx & Ht2 & Htx & _).
    exists b2, db2; split.
    + destruct o; simpl; unfold batch.Put, batch.Delete; rewrite Hq; exact Hx.
    + split; [congruence|].
      destruct (Commit_done f b2 db2 Htx) as (db3 & Hc & Ht3).
      exists db3; split; [exact Hc | congruence].
  - intros Hne Hc.
    destruct Hw as [Hw | [_ Hnil]].
    + unfold batch.Commit, tx_Commit; rewrite Hw, Hc; simpl.
      eexists; rewrite Hq, Ht; reflexivity.
    + destruct os; [contradiction | discriminate].
Qed.

Lemma batch_atomicity_witness :
  let qs := dialect_queries PG "blocks" in
  let f : Fault := fun c =>
    match c with
    | CTxExec st _ => if String.eqb st (deleteQuery qs) then Some (ErrDb "delete rejected") else None
    | _ => None
    end in
  let db := {| db_table := [("/b", [Byte.x01])]; db_log := [] |} in
  exists b1 db1,
    batch.run f [batch.OpPut "/a" [Byte.x78]] (batch.new qs) db = Ret (None, b1, db1)
    /\ exists b2 db2,
         batch.run_op f (batch.OpDelete "/b") b1 db1 = Ret (Some (ErrDb "delete rejected"), b2, db2)
         /\ db_table db2 = db_table db.
Proof.
  intros qs f db.
  assert (Hb : f CBegin = None) by reflexivity.
  assert (He : f (CTxExec (fst (batch.op_stmt qs (batch.OpDelete "/b"))) (snd (batch.op_stmt qs (batch.OpDelete "/b"))))
               = Some (ErrDb "delete rejected")) by (vm_compute; reflexivity).
  destruct (batch.run f [batch.OpPut "/a" [Byte.x78]] (batch.new qs) db) as [[[[e|] b1] db1]|m] eqn:Hr;
    [vm_compute in Hr; discriminate | | vm_compute in Hr; discriminate].
  exists b1, db1; split; [reflexivity|].
  destruct (batch_atomicity f qs db [batch.OpPut "/a" [Byte.x78]] b1 db1 Hb Hr) as [Hfail _].
  destruct (Hfail (batch.OpDelete "/b") (ErrDb "delete rejected") He) as (b2 & db2 & H1 & H2 & _).
  exists b2, db2; split; [exact H1 | exact H2].
Defined.

(* ------------------------------------------------------------------ *)
(** ** Construction *)

(** C4 (code_bug). With default options and no server listening,
    [postgres.Options.Create] still returns a datastore and no error: it
    opens the handle without probing the connection. [sqlite.Options.Create]
    in the same environment fails with the ping error. *)
Theorem Create_connectivity_probe :
  let refused := ErrDb "dial tcp 127.0.0.1:5432: connect: connection refused" in
  let env := {| env_open := fun _ _ => None;
                env_ping := fun _ _ => Some refused;
                env_exec := fun _ _ _ => Some refused |} in
  Postgres.Create env {| Postgres.Host := ""; Postgres.Port := ""; Postgres.User := "";
                         Postgres.Password := ""; Postgres.Database := ""; Postgres.Table := "" |}
    = (Some {| h_driver := "postgres";
               h_dsn := "postgresql:///datastore?host=127.0.0.1&port=5432&user=postgres&password=&sslmode=disable";
               h_queries := Postgres.NewQueries "blocks" |}, None)
  /\ Sqlite.Create env {| Sqlite.Driver := ""; Sqlite.DSN := ""; Sqlite.Table := "";
                          Sqlite.NoCreate := false; Sqlite.Key := []; Sqlite.CipherPageSize := 0 |}
    = (None, Some (ErrWrap "failed to ping database" refused)).
Proof. split; reflexivity. Qed.

(* ------------------------------------------------------------------ *)
(** ** The result stream *)

(** C8 (code_bug). The iterator's [Next] builds a result carrying the scan
    error but returns it with [false], which [ResultsFromIterator] reads as
    the end of the stream: no element of the stream ever carries an error,
    and a scan failure ends the stream silently. *)
Theorem RawQuery_scan_error_dropped :
  (forall (q : Query) (rows : Rows), Forall (fun r => r_Error r = None) (ResultsFromIterator q rows))
  /\ (forall (q : Query) (e : error),
        next_row q (ScanFail e) = ({| r_Entry := empty_entry; r_Error := Some e |}, false))
  /\ (forall (q : Query) (pre rest : Rows) (e : error),
        Forall (fun r => match r with ScanRow _ _ => True | ScanFail _ => False end) pre ->
        ResultsFromIterator q (pre ++ ScanFail e :: rest)%list = ResultsFromIterator q pre).
Proof.
  split; [|split; [reflexivity|]].
  - intros q rows; induction rows as [|r rows IH]; simpl; [constructor|].
    destruct r; simpl; [constructor; [reflexivity | exact IH] | constructor].
  - intros q pre rest e Hpre; induction Hpre as [|r pre Hr _ IH]; simpl; [reflexivity|].
    destruct r; [simpl; rewrite IH; reflexivity | contradiction].
Qed.

Lemma RawQuery_scan_error_dropped_witness :
  let q := {| Prefix := ""; Filters := []; Orders := []; Limit := 0; Offset := 0;
              KeysOnly := false; ReturnsSizes := false |} in
  let e := ErrDb "sql: Scan error on column index 0, name key: converting NULL to string is unsupported" in
  ResultsFromIterator q [ScanRow "/a" [Byte.x01]; ScanFail e; ScanRow "/c" [Byte.x03]]
  = [{| r_Entry := {| e_Key := "/a"; e_Value := [Byte.x01]; e_Size := 0 |}; r_Error := None |}].
Proof.
  intros q e.
  exact (proj2 (proj2 RawQuery_scan_error_dropped) q [ScanRow "/a" [Byte.x01]] [ScanRow "/c" [Byte.x03]] e
           (Forall_cons (ScanRow "/a" [Byte.x01]) I (Forall_nil _))).
Defined.

(* ================================================================== *)
(** * Further properties of the code *)

(* ------------------------------------------------------------------ *)
(** ** The dialects' statements and options *)


Lemma default_nonempty (s dflt : string) :
  dflt <> "" -> (if String.eqb s "" then dflt else s) <> "".
Proof.
  intros Hd; destruct (String.eqb s "") eqn:E; [exact Hd|].
  intros ->; discriminate.
Qed.

Lemma default_keep (s dflt : string) :
  s = "" \/ (if String.eqb s "" then dflt else s) = s.
Proof. destruct s; [left; reflexivity | right; reflexivity]. Qed.

Lemma default_idem (s dflt : string) :
  dflt <> "" ->
  (if String.eqb (if String.eqb s "" then dflt else s) "" then dflt
   else if String.eqb s "" then dflt else s)
  = (if String.eqb s "" then dflt else s).
Proof.
  intros Hd; destruct (String.eqb s "") eqn:E.
  - destruct (String.eqb dflt "") eqn:E'; [apply String.eqb_eq in E'; contradiction | reflexivity].
  - rewrite E; reflexivity.
Qed.

(** X2. After [postgres.Options.setDefaults], host, port, user, database
    and table are non-empty, every field the caller set is kept, the
    password is never defaulted, and applying it again changes nothing. *)
Theorem Postgres_setDefaults_spec (o : Postgres.Options) :
  let o' := Postgres.setDefaults o in
  Postgres.Host o' <> "" /\ Postgres.Port o' <> "" /\ Postgres.User o' <> ""
  /\ Postgres.Database o' <> "" /\ Postgres.Table o' <> ""
  /\ (Postgres.Host o = "" \/ Postgres.Host o' = Postgres.Host o)
  /\ (Postgres.Port o = "" \/ Postgres.Port o' = Postgres.Port o)
  /\ (Postgres.User o = "" \/ Postgres.User o' = Postgres.User o)
  /\ (Postgres.Database o = "" \/ Postgres.Database o' = Postgres.Database o)
  /\ (Postgres.Table o = "" \/ Postgres.Table o' = Postgres.Table o)
  /\ Postgres.Password o' = Postgres.Password o
  /\ Postgres.setDefaults o' = o'.
Proof.
  intros o'; subst o'.
  repeat split; simpl;
    first [ apply default_nonempty; discriminate | apply default_keep | reflexivity | idtac ].
  unfold Postgres.setDefaults at 1; simpl.
  rewrite !default_idem by discriminate; reflexivity.
Qed.

(** X3. After [sqlite.Options.setDefaults], driver, DSN and table are
    non-empty and every field the caller set is kept; with a cipher key
    the page size is never zero, a page size the caller set is kept, and
    without a key it is left alone. Applying it again changes nothing. *)
Theorem Sqlite_setDefaults_spec (o : Sqlite.Options) :
  let o' := Sqlite.setDefaults o in
  Sqlite.Driver o' <> "" /\ Sqlite.DSN o' <> "" /\ Sqlite.Table o' <> ""
  /\ (Sqlite.Driver o = "" \/ Sqlite.Driver o' = Sqlite.Driver o)
  /\ (Sqlite.DSN o = "" \/ Sqlite.DSN o' = Sqlite.DSN o)
  /\ (Sqlite.Table o = "" \/ Sqlite.Table o' = Sqlite.Table o)
  /\ Sqlite.Key o' = Sqlite.Key o /\ Sqlite.NoCreate o' = Sqlite.NoCreate o
  /\ (Sqlite.Key o = [] \/ Sqlite.CipherPageSize o' <> 0%Z)
  /\ (Sqlite.CipherPageSize o = 0%Z \/ Sqlite.CipherPageSize o' = Sqlite.CipherPageSize o)
  /\ (Sqlite.Key o <> [] \/ Sqlite.CipherPageSize o' = Sqlite.CipherPageSize o)
  /\ Sqlite.setDefaults o' = o'.
Proof.
  intros o'; subst o'.
  destruct o as [drv dsn tbl nc key page]; unfold Sqlite.setDefaults; simpl.
  repeat split;
    first [ apply default_nonempty; discriminate | apply default_keep | reflexivity | idtac ].
  - destruct key as [|x key]; [left; reflexivity | right; simpl].
    destruct (Z.eqb page 0) eqn:E; simpl; [discriminate|].
    apply Z.eqb_neq; exact E.
  - destruct (Z.eqb page 0) eqn:E; [left; apply Z.eqb_eq; exact E | right].
    rewrite andb_false_r; reflexivity.
  - destruct key as [|x key]; [right; reflexivity | left; discriminate].
  - rewrite !default_idem by discriminate.
    destruct key as [|x key]; simpl; [reflexivity|].
    destruct (Z.eqb page 0) eqn:E; simpl; rewrite ?E; reflexivity.
Qed.


(** X5. [sqlite.Options.Create] with a cipher key that is neither empty
    nor 32 bytes long fails with the bad-key-length error, before the
    driver is called at all. *)
Theorem Sqlite_Create_bad_key_length (env : Env) (o : Sqlite.Options) :
  List.length (Sqlite.Key o) <> 0%nat ->
  List.length (Sqlite.Key o) <> 32%nat ->
  Sqlite.Create env o = (None, Some (ErrBadKeyLength (List.length (Sqlite.Key o)))).
Proof.
  intros H0 H32; unfold Sqlite.Create; cbn zeta.
  change (Sqlite.Key (Sqlite.setDefaults o)) with (Sqlite.Key o).
  apply Nat.eqb_neq in H0, H32; rewrite H0, H32; reflexivity.
Qed.

Lemma Sqlite_Create_bad_key_length_witness :
  let o := {| Sqlite.Driver := ""; Sqlite.DSN := ""; Sqlite.Table := ""; Sqlite.NoCreate := false;
              Sqlite.Key := [Byte.x00; Byte.x01]; Sqlite.CipherPageSize := 0 |} in
  let env := {| env_open := fun _ _ => None; env_ping := fun _ _ => None;
                env_exec := fun _ _ _ => None |} in
  Sqlite.Create env o = (None, Some (ErrBadKeyLength 2)).
Proof.
  intros o env.
  exact (Sqlite_Create_bad_key_length env o ltac:(simpl; lia) ltac:(simpl; lia)).
Defined.

(** X6. When the driver accepts everything, [sqlite.Options.Create]
    without a cipher key opens exactly the (defaulted) DSN; with a 32-byte
    key it appends the two sqlcipher pragmas to the DSN, after a [&] if
    the DSN already has a query string and after a [?] otherwise, the key
    in hexadecimal and the (defaulted) page size in decimal. *)
Theorem Sqlite_Create_dsn (env : Env) (o : Sqlite.Options) :
  accepts_all env ->
  let o' := Sqlite.setDefaults o in
  let h (dsn : string) := {| h_driver := Sqlite.Driver o'; h_dsn := dsn;
                             h_queries := Sqlite.NewQueries (Sqlite.Table o') |} in
  (Sqlite.Key o = [] -> Sqlite.Create env o = (Some (h (Sqlite.DSN o')), None))
  /\ (List.length (Sqlite.Key o) = 32%nat ->
      Sqlite.Create env o =
        (Some (h (Sqlite.DSN o' ++ (if ContainsRune (Sqlite.DSN o') "?" then "&" else "?")
                  ++ "_pragma_key=x'" ++ hex_EncodeToString (Sqlite.Key o)
                  ++ "'&_pragma_cipher_page_size=" ++ Z_to_dec (Sqlite.CipherPageSize o'))),
         None)).
Proof.
  intros [Ho [Hp He]] o' h; split; intros Hk; unfold Sqlite.Create; cbn zeta; fold o'.
  - change (Sqlite.Key o') with (Sqlite.Key o); rewrite Hk; simpl.
    rewrite Ho, Hp; destruct (Sqlite.NoCreate o); [reflexivity|].
    rewrite He; reflexivity.
  - change (Sqlite.Key o') with (Sqlite.Key o); rewrite Hk; simpl.
    rewrite Ho, Hp; destruct (Sqlite.NoCreate o); rewrite ?He;
      destruct (ContainsRune _ "?"); rewrite ?string_app_assoc, ?string_app_empty_r;
      reflexivity.
Qed.

Lemma Sqlite_Create_dsn_witness :
  let o := {| Sqlite.Driver := ""; Sqlite.DSN := "file:ds.db?cache=shared"; Sqlite.Table := "";
              Sqlite.NoCreate := false; Sqlite.Key := repeat Byte.xab 32;
              Sqlite.CipherPageSize := 0 |} in
  let env := {| env_open := fun _ _ => None; env_ping := fun _ _ => None;
                env_exec := fun _ _ _ => None |} in
  accepts_all env /\ List.length (Sqlite.Key o) = 32%nat
  /\ Sqlite.Create env o =
     (Some {| h_driver := "sqlite3";
              h_dsn := "file:ds.db?cache=shared&_pragma_key=x'abababababababababababababababababababababababababababababababab'&_pragma_cipher_page_size=4096";
              h_queries := Sqlite.NewQueries "blocks" |}, None).
Proof.
  intros o env.
  assert (Ha : accepts_all env) by (repeat split).
  assert (Hl : List.length (Sqlite.Key o) = 32%nat) by reflexivity.
  split; [exact Ha | split; [exact Hl|]].
  rewrite (proj2 (Sqlite_Create_dsn env o Ha) Hl); vm_compute; reflexivity.
Defined.

(** X7. With [NoCreate] set, [sqlite.Options.Create] never runs the
    table creation: its outcome is the same whatever the engine does with
    statements. Without it, once open and ping succeed, it runs
    [CREATE TABLE IF NOT EXISTS] on the (defaulted) table, and a failure
    there yields no datastore and the engine's error wrapped as "failed to
    ensure table exists". *)
Theorem Sqlite_Create_table_step (env : Env) (o : Sqlite.Options)
    (exec' : string -> string -> string -> option error) :
  (Sqlite.NoCreate o = true ->
   Sqlite.Create {| env_open := env_open env; env_ping := env_ping env; env_exec := exec' |} o
   = Sqlite.Create env o)
  /\ (Sqlite.NoCreate o = false -> Sqlite.Key o = [] ->
      let o' := Sqlite.setDefaults o in
      env_open env (Sqlite.Driver o') (Sqlite.DSN o') = None ->
      env_ping env (Sqlite.Driver o') (Sqlite.DSN o') = None ->
      Sqlite.Create env o =
        match env_exec env (Sqlite.Driver o') (Sqlite.DSN o')
                ("CREATE TABLE IF NOT EXISTS " ++ Sqlite.Table o'
                 ++ " (key TEXT PRIMARY KEY, data BLOB) WITHOUT ROWID;") with
        | Some e => (None, Some (ErrWrap "failed to ensure table exists" e))
        | None => (Some {| h_driver := Sqlite.Driver o'; h_dsn := Sqlite.DSN o';
                          h_queries := Sqlite.NewQueries (Sqlite.Table o') |}, None)
        end).
Proof.
  split.
  - intros Hn; unfold Sqlite.Create; cbn zeta.
    change (Sqlite.NoCreate (Sqlite.setDefaults o)) with (Sqlite.NoCreate o); rewrite Hn.
    simpl; destruct (_ : sum _ _) as [args|e]; [|reflexivity].
    destruct (env_open env _ _); [reflexivity|].
    destruct (env_ping env _ _); reflexivity.
  - intros Hn Hk o' Ho Hp; unfold Sqlite.Create; cbn zeta; fold o'.
    change (Sqlite.Key o') with (Sqlite.Key o); rewrite Hk; subst o'; simpl in Ho, Hp |- *.
    rewrite Ho, Hp, Hn.
    unfold Sqlite.create_table; simpl; reflexivity.
Qed.

Lemma Sqlite_Create_table_step_witness :
  let o := {| Sqlite.Driver := ""; Sqlite.DSN := ""; Sqlite.Table := "kv";
              Sqlite.NoCreate := false; Sqlite.Key := []; Sqlite.CipherPageSize := 0 |} in
  let ro := ErrDb "attempt to write a readonly database" in
  let env := {| env_open := fun _ _ => None; env_ping := fun _ _ => None;
                env_exec := fun _ _ _ => Some ro |} in
  Sqlite.Create env o = (None, Some (ErrWrap "failed to ensure table exists" ro))
  /\ Sqlite.Create {| env_open := env_open env; env_ping := env_ping env;
                      env_exec := fun _ _ _ => None |}
       {| Sqlite.Driver := ""; Sqlite.DSN := ""; Sqlite.Table := "kv";
          Sqlite.NoCreate := true; Sqlite.Key := []; Sqlite.CipherPageSize := 0 |}
     = Sqlite.Create env
       {| Sqlite.Driver := ""; Sqlite.DSN := ""; Sqlite.Table := "kv";
          Sqlite.NoCreate := true; Sqlite.Key := []; Sqlite.CipherPageSize := 0 |}.
Proof.
  intros o ro env; split.
  - exact (proj2 (Sqlite_Create_table_step env o (fun _ _ _ => None)) eq_refl eq_refl eq_refl eq_refl).
  - exact (proj1 (Sqlite_Create_table_step env
                    {| Sqlite.Driver := ""; Sqlite.DSN := ""; Sqlite.Table := "kv";
                       Sqlite.NoCreate := true; Sqlite.Key := []; Sqlite.CipherPageSize := 0 |}
                    (fun _ _ _ => None)) eq_refl).
Defined.

Lemma hex_digit_inj (n m : N) :
  (n < 16)%N -> (m < 16)%N -> hex_digit n = hex_digit m -> n = m.
Proof.
  intros Hn Hm H; apply (f_equal N_of_ascii) in H; unfold hex_digit in H.
  destruct (n <? 10)%N eqn:En, (m <? 10)%N eqn:Em;
    rewrite ?N.ltb_lt, ?N.ltb_ge in En, Em;
    rewrite !N_ascii_embedding in H by lia; lia.
Qed.

Lemma hex_digit_lower (n : N) : (n < 16)%N -> lower_hex_digit (hex_digit n) = true.
Proof.
  intros Hn.
  assert (Hall : forallb (fun m => lower_hex_digit (hex_digit (N.of_nat m))) (seq 0 16) = true)
    by reflexivity.
  rewrite forallb_forall in Hall.
  rewrite <- (Nnat.N2Nat.id n); apply Hall, in_seq; lia.
Qed.

Lemma byte_digits_inj (x y : Byte.byte) :
  (Byte.to_N x / 16 = Byte.to_N y / 16)%N -> (Byte.to_N x mod 16 = Byte.to_N y mod 16)%N -> x = y.
Proof.
  intros Hd Hm.
  assert (E : Byte.to_N x = Byte.to_N y).
  { rewrite (N.div_mod (Byte.to_N x) 16), (N.div_mod (Byte.to_N y) 16) by discriminate.
    rewrite Hd, Hm; reflexivity. }
  apply (f_equal Byte.of_N) in E; rewrite !Byte.of_to_N in E; congruence.
Qed.

(** X8. [hex.EncodeToString], which renders the sqlcipher key, writes two
    lowercase hexadecimal digits per byte, and distinct keys give distinct
    renderings. *)
Theorem hex_EncodeToString_spec (b1 b2 : list Byte.byte) :
  String.length (hex_EncodeToString b1) = (2 * List.length b1)%nat
  /\ all_chars lower_hex_digit (hex_EncodeToString b1) = true
  /\ (hex_EncodeToString b1 = hex_EncodeToString b2 -> b1 = b2).
Proof.
  assert (Hlt : forall x : Byte.byte, (Byte.to_N x / 16 < 16)%N /\ (Byte.to_N x mod 16 < 16)%N).
  { intros x; pose proof (Byte.to_N_bounded x); split;
      [apply N.Div0.div_lt_upper_bound; lia | apply N.mod_lt; discriminate]. }
  split; [|split].
  - induction b1 as [|x b1 IH]; simpl; [reflexivity | rewrite IH; lia].
  - induction b1 as [|x b1 IH]; simpl; [reflexivity|].
    destruct (Hlt x) as [H1 H2]; rewrite !hex_digit_lower by assumption; exact IH.
  - revert b2; induction b1 as [|x b1 IH]; intros [|y b2] H; simpl in H;
      try discriminate; [reflexivity|].
    injection H as H1 H2 H3.
    destruct (Hlt x) as [Hx1 Hx2], (Hlt y) as [Hy1 Hy2].
    f_equal; [apply byte_digits_inj; apply hex_digit_inj; assumption | apply IH; exact H3].
Qed.

Lemma hex_EncodeToString_spec_witness :
  hex_EncodeToString [Byte.x0f; Byte.xa0] = "0fa0" /\ [Byte.x0f; Byte.xa0] = [Byte.x0f; Byte.xa0].
Proof.
  split; [reflexivity|].
  exact (proj2 (proj2 (hex_EncodeToString_spec [Byte.x0f; Byte.xa0] [Byte.x0f; Byte.xa0])) eq_refl).
Defined.

(* ------------------------------------------------------------------ *)
(** ** The record store *)



(** X10. Under either dialect, a [Put] the executor runs succeeds and
    changes the table at its own key only: afterwards the key holds the
    new value and every other key keeps its value. A [Put] the executor
    rejects returns that error and leaves the table unchanged. *)
Theorem Put_effect (d : Dialect) (tbl : string) (f : Fault) (db : DB) (k : string) (v : bytes) :
  let qs := dialect_queries d tbl in
  (f (CExec (putQuery qs) [VText k; VBytes v]) = None ->
   fst (Datastore.Put f qs k v db) = None
   /\ forall k', tbl_lookup k' (db_table (snd (Datastore.Put f qs k v db)))
                 = if String.eqb k k' then Some v else tbl_lookup k' (db_table db))
  /\ (forall e, f (CExec (putQuery qs) [VText k; VBytes v]) = Some e ->
      fst (Datastore.Put f qs k v db) = Some e
      /\ db_table (snd (Datastore.Put f qs k v db)) = db_table db).
Proof.
  intros qs.
  destruct (classify_dialect d tbl) as (_ & _ & _ & Cp & _); fold qs in Cp.
  unfold Datastore.Put, db_Exec, eval_exec; split.
  - intros H; rewrite H, Cp; simpl; split; [reflexivity|].
    intros k'; apply tbl_lookup_upsert.
  - intros e H; rewrite H; simpl; split; reflexivity.
Qed.

Lemma Put_effect_witness :
  let qs := dialect_queries SQLITE "blocks" in
  let db := {| db_table := [("/a", [Byte.x01]); ("/b", [Byte.x02])]; db_log := [] |} in
  no_fault (CExec (putQuery qs) [VText "/a"; VBytes [Byte.x09]]) = None
  /\ tbl_lookup "/b" (db_table (snd (Datastore.Put no_fault qs "/a" [Byte.x09] db))) = Some [Byte.x02].
Proof.
  intros qs db; split; [reflexivity|].
  exact (proj2 (proj1 (Put_effect SQLITE "blocks" no_fault db "/a" [Byte.x09]) eq_refl) "/b").
Defined.

(** X11. Under either dialect, a [Delete] of a key the table holds, run
    by the executor, succeeds, removes that key and no other, and a second
    [Delete] of the same key then answers NotFound. *)
Theorem Delete_present_key (d : Dialect) (tbl : string) (f : Fault) (db : DB) (k : string) (v : bytes) :
  let qs := dialect_queries d tbl in
  tbl_lookup k (db_table db) = Some v ->
  f (CExec (deleteQuery qs) [VText k]) = None ->
  let db' := snd (Datastore.Delete f qs k db) in
  fst (Datastore.Delete f qs k db) = None
  /\ (forall k', tbl_lookup k' (db_table db')
                 = if String.eqb k k' then None else tbl_lookup k' (db_table db))
  /\ fst (Datastore.Delete f qs k db') = Some ErrNotFound.
Proof.
  intros qs Hk Hf db'.
  destruct (classify_dialect d tbl) as (Cd & _); fold qs in Cd.
  assert (Hdb : db' = set_table (tbl_delete k (db_table db)) (log_call (CExec (deleteQuery qs) [VText k]) db)).
  { subst db'; unfold Datastore.Delete, db_Exec, eval_exec.
    rewrite Hf, Cd; simpl; rewrite Hk; reflexivity. }
  split; [|split].
  - unfold Datastore.Delete, db_Exec, eval_exec; rewrite Hf, Cd; simpl; rewrite Hk; reflexivity.
  - intros k'; rewrite Hdb; apply tbl_lookup_delete.
  - unfold Datastore.Delete at 1, db_Exec, eval_exec; rewrite Hf, Cd.
    rewrite Hdb; simpl; rewrite tbl_lookup_delete, String.eqb_refl; reflexivity.
Qed.

Lemma Delete_present_key_witness :
  let qs := dialect_queries PG "blocks" in
  let db := {| db_table := [("/a", [Byte.x01]); ("/b", [Byte.x02])]; db_log := [] |} in
  fst (Datastore.Delete no_fault qs "/a" db) = None
  /\ fst (Datastore.Delete no_fault qs "/a" (snd (Datastore.Delete no_fault qs "/a" db))) = Some ErrNotFound.
Proof.
  intros qs db.
  destruct (Delete_present_key PG "blocks" no_fault db "/a" [Byte.x01] eq_refl eq_refl) as (H1 & _ & H3).
  split; [exact H1 | exact H3].
Defined.

(* ------------------------------------------------------------------ *)
(** ** Queries *)

(** X12. When every row of the cursor scans, [RawQuery] yields one entry
    per row in cursor order, with the row's key; the value is dropped when
    the query asks for keys only, and the size is the value's byte count
    when the query asks for sizes (also for a keys-only query), 0
    otherwise. *)
Theorem RawQuery_entries (run : Executor) (qs : Queries) (q : Query) (rows : list (string * bytes)) :
  run (QueryWithParams_sql qs q) = inl (map (fun '(k, v) => ScanRow k v) rows) ->
  RawQuery run qs q =
    inl (map (fun '(k, v) =>
                {| r_Entry := {| e_Key := k;
                                 e_Value := if KeysOnly q then [] else v;
                                 e_Size := if ReturnsSizes q then Z.of_nat (List.length v) else 0 |};
                   r_Error := None |}) rows).
Proof.
  intros H; unfold RawQuery; rewrite H; f_equal; clear H.
  induction rows as [|[k v] rows IH]; simpl; [reflexivity | rewrite IH; reflexivity].
Qed.

Lemma RawQuery_entries_witness :
  let q := {| Prefix := ""; Filters := []; Orders := []; Limit := 0; Offset := 0;
              KeysOnly := true; ReturnsSizes := true |} in
  let run : Executor := fun _ => inl [ScanRow "/a" [Byte.x01; Byte.x02]] in
  RawQuery run (Postgres.NewQueries "blocks") q
  = inl [{| r_Entry := {| e_Key := "/a"; e_Value := []; e_Size := 2 |}; r_Error := None |}].
Proof.
  intros q run.
  exact (RawQuery_entries run (Postgres.NewQueries "blocks") q [("/a", [Byte.x01; Byte.x02])] eq_refl).
Defined.

Lemma ResultsFromIterator_no_error (q : Query) (rows : Rows) :
  Forall (fun r => r_Error r = None) (ResultsFromIterator q rows).
Proof.
  induction rows as [|r rows IH]; simpl; [constructor|].
  destruct r; simpl; [constructor; [reflexivity | exact IH] | constructor].
Qed.

Lemma In_fold_NaiveFilter (fs : list Filter) :
  forall raw r, In r (fold_left NaiveFilter fs raw) ->
  In r raw /\ (r_Error r = None -> passes fs r = true).
Proof.
  induction fs as [|flt fs IH]; intros raw r H; simpl in H.
  - split; [exact H | reflexivity].
  - apply IH in H as [Hin Hp]; unfold NaiveFilter in Hin; apply filter_In in Hin as [Hin Hf].
    split; [exact Hin|]; intros Hn; unfold passes; simpl.
    rewrite Hn in Hf; rewrite Hf; apply Hp; exact Hn.
Qed.

Lemma insert_by_perm (lt : Entry -> Entry -> bool) (e : Entry) (es : list Entry) :
  Permutation (insert_by lt e es) (e :: es).
Proof.
  induction es as [|x es IH]; simpl; [reflexivity|].
  destruct (lt x e); [|reflexivity].
  transitivity (x :: e :: es); [apply perm_skip; exact IH | apply perm_swap].
Qed.

Lemma Sort_perm (os : list Order) (es : list Entry) : Permutation (Sort os es) es.
Proof.
  induction es as [|e es IH]; simpl; [reflexivity|].
  transitivity (e :: Sort os es); [apply insert_by_perm | apply perm_skip; exact IH].
Qed.

Lemma NaiveOrder_incl (rs : list Result) (os : list Order) (r : Result) :
  In r (NaiveOrder rs os) -> In r rs.
Proof.
  unfold NaiveOrder; destruct os as [|o os]; [exact id|].
  intros H; apply in_app_or in H as [H|H].
  - apply filter_In in H; apply H.
  - apply in_map_iff in H as (e & <- & He).
    apply (Permutation_in _ (Sort_perm _ _)) in He.
    apply in_map_iff in He as (r0 & <- & Hr0).
    apply filter_In in Hr0 as [Hin Hn].
    destruct r0 as [e0 [err|]]; [discriminate | exact Hin].
Qed.

Lemma In_skipn_incl {A : Type} (n : nat) (l : list A) (x : A) : In x (skipn n l) -> In x l.
Proof. intros H; rewrite <- (firstn_skipn n l); apply in_or_app; right; exact H. Qed.

Lemma In_firstn_incl {A : Type} (n : nat) (l : list A) (x : A) : In x (firstn n l) -> In x l.
Proof. intros H; rewrite <- (firstn_skipn n l); apply in_or_app; left; exact H. Qed.

(** X13. Every result [Datastore.Query] returns carries no error and
    passes every filter of the query; a query with filters or orders and a
    positive limit returns at most that many results. *)
Theorem Query_results_filtered (run : Executor) (qs : Queries) (q : Query) (rs : list Result) :
  Datastore_Query run qs q = inl rs ->
  Forall (fun r => r_Error r = None /\ passes (Filters q) r = true) rs
  /\ (no_naive q = false -> (0 < Limit q)%Z -> (List.length rs <= Z.to_nat (Limit q))%nat).
Proof.
  unfold Datastore_Query, RawQuery.
  destruct (run _) as [rows|e]; [|discriminate].
  intros H; injection H as <-.
  set (ord := NaiveOrder (fold_left NaiveFilter (Filters q) (ResultsFromIterator q rows)) (Orders q)).
  split.
  - apply Forall_forall; intros r Hr.
    assert (Ho : In r ord).
    { destruct (negb (no_naive q)); [|exact Hr].
      destruct (Z.eqb (Offset q) 0), (Z.eqb (Limit q) 0); unfold NaiveLimit, NaiveOffset in Hr;
        repeat (apply In_firstn_incl in Hr || apply In_skipn_incl in Hr); exact Hr. }
    apply NaiveOrder_incl, In_fold_NaiveFilter in Ho as [Hin Hp].
    assert (Hn : r_Error r = None)
      by exact (proj1 (Forall_forall _ _) (ResultsFromIterator_no_error q rows) r Hin).
    split; [exact Hn | apply Hp; exact Hn].
  - intros Hn Hl; rewrite Hn; simpl.
    destruct (Z.eqb (Limit q) 0) eqn:E; [apply Z.eqb_eq in E; lia|].
    apply firstn_le_length.
Qed.

Lemma Query_results_filtered_witness :
  let q := {| Prefix := ""; Filters := [fun e => negb (String.eqb (e_Key e) "/b")]; Orders := [];
              Limit := 1; Offset := 0; KeysOnly := true; ReturnsSizes := false |} in
  let run : Executor := fun _ => inl [ScanRow "/a" []; ScanRow "/b" []; ScanRow "/c" []] in
  no_naive q = false /\ (0 < Limit q)%Z
  /\ exists rs, Datastore_Query run (Postgres.NewQueries "blocks") q = inl rs
                /\ (List.length rs <= 1)%nat.
Proof.
  intros q run.
  assert (Hn : no_naive q = false) by reflexivity.
  assert (Hl : (0 < Limit q)%Z) by (simpl; lia).
  split; [exact Hn | split; [exact Hl|]].
  destruct (Datastore_Query run (Postgres.NewQueries "blocks") q) as [rs|e] eqn:Hq;
    [|vm_compute in Hq; discriminate].
  exists rs; split; [reflexivity|].
  exact (proj2 (Query_results_filtered run _ q rs Hq) Hn Hl).
Defined.

Lemma fold_NaiveFilter_step (flt : Filter) (fs : list Filter) (raw : list Result) :
  Forall (fun r => r_Error r = None) raw ->
  List.filter (passes fs) (NaiveFilter raw flt) = List.filter (passes (flt :: fs)) raw.
Proof.
  induction 1 as [|r raw Hr _ IH]; simpl; [reflexivity|].
  unfold passes at 2; simpl; rewrite Hr.
  destruct (flt (r_Entry r)); simpl; [|exact IH].
  rewrite IH; reflexivity.
Qed.

Lemma fold_NaiveFilter (fs : list Filter) :
  forall raw, Forall (fun r => r_Error r = None) raw ->
  fold_left NaiveFilter fs raw = List.filter (passes fs) raw.
Proof.
  induction fs as [|flt fs IH]; intros raw Hraw; simpl.
  - clear Hraw; induction raw as [|r raw IH']; simpl; [reflexivity | rewrite <- IH'; reflexivity].
  - rewrite IH.
    + apply fold_NaiveFilter_step; exact Hraw.
    + apply Forall_forall; intros r Hr; unfold NaiveFilter in Hr; apply filter_In in Hr as [Hr _].
      exact (proj1 (Forall_forall _ _) Hraw r Hr).
Qed.

Lemma NaiveOrder_perm (rs : list Result) (os : list Order) :
  Forall (fun r => r_Error r = None) rs -> Permutation (NaiveOrder rs os) rs.
Proof.
  intros Hrs; unfold NaiveOrder; destruct os as [|o os]; [reflexivity|].
  assert (E1 : List.filter (fun r => match r_Error r with Some _ => true | None => false end) rs = []).
  { induction Hrs as [|r rs Hr _ IH]; simpl; [reflexivity | rewrite Hr; exact IH]. }
  assert (E2 : List.filter (fun r => match r_Error r with Some _ => false | None => true end) rs = rs).
  { clear E1; induction Hrs as [|r rs Hr _ IH]; simpl; [reflexivity | rewrite Hr, IH; reflexivity]. }
  assert (E3 : map (fun e => {| r_Entry := e; r_Error := None |}) (map r_Entry rs) = rs).
  { clear E1 E2; induction Hrs as [|[e err] rs Hr _ IH]; simpl in *; [reflexivity | subst err; rewrite IH; reflexivity]. }
  rewrite E1, E2; simpl.
  rewrite <- E3 at 2.
  apply Permutation_map, Sort_perm.
Qed.

(** X14. Without limit and offset, [Datastore.Query] returns exactly the
    results of the cursor that pass every filter, each once: its ordering
    neither drops nor duplicates a result. *)
Theorem Query_order_permutation (run : Executor) (qs : Queries) (q : Query) (rows : Rows) (rs : list Result) :
  Offset q = 0%Z -> Limit q = 0%Z ->
  run (QueryWithParams_sql qs q) = inl rows ->
  Datastore_Query run qs q = inl rs ->
  Permutation rs (List.filter (passes (Filters q)) (ResultsFromIterator q rows)).
Proof.
  intros Ho Hl Hr; unfold Datastore_Query, RawQuery; rewrite Hr.
  intros H; injection H as <-.
  rewrite Ho, Hl; simpl.
  pose proof (ResultsFromIterator_no_error q rows) as Hn.
  rewrite fold_NaiveFilter by exact Hn.
  assert (Hf : Forall (fun r => r_Error r = None) (List.filter (passes (Filters q)) (ResultsFromIterator q rows))).
  { apply Forall_forall; intros r Hin; apply filter_In in Hin as [Hin _].
    exact (proj1 (Forall_forall _ _) Hn r Hin). }
  destruct (negb (no_naive q)); apply NaiveOrder_perm; exact Hf.
Qed.

Lemma Query_order_permutation_witness :
  let by_key_desc : Order := fun a b =>
    if String.ltb (e_Key b) (e_Key a) then (-1)%Z
    else if String.eqb (e_Key a) (e_Key b) then 0%Z else 1%Z in
  let q := {| Prefix := ""; Filters := []; Orders := [by_key_desc];
              Limit := 0; Offset := 0; KeysOnly := true; ReturnsSizes := false |} in
  let run : Executor := fun _ => inl [ScanRow "/a" []; ScanRow "/b" []] in
  exists rs, Datastore_Query run (Sqlite.NewQueries "blocks") q = inl rs
    /\ Permutation rs (List.filter (passes (Filters q)) (ResultsFromIterator q [ScanRow "/a" []; ScanRow "/b" []])).
Proof.
  intros by_key_desc q run.
  destruct (Datastore_Query run (Sqlite.NewQueries "blocks") q) as [rs|e] eqn:Hq;
    [|vm_compute in Hq; discriminate].
  exists rs; split; [reflexivity|].
  exact (Query_order_permutation run _ q _ rs eq_refl eq_refl eq_refl Hq).
Defined.

Lemma split_on_nonnil (sep : ascii) (s : string) : split_on sep s <> [].
Proof.
  induction s as [|c s IH]; simpl; [discriminate|].
  destruct (Ascii.eqb c sep); [discriminate|].
  destruct (split_on sep s); discriminate.
Qed.

Lemma split_on_app_slash (s : string) : split_on "/" (s ++ "/") = (split_on "/" s ++ [""])%list.
Proof.
  induction s as [|c s IH]; [reflexivity|].
  cbn [String.append split_on]; rewrite IH.
  destruct (Ascii.eqb c "/"); [reflexivity|].
  destruct (split_on "/" s) as [|s0 ss] eqn:E; [exfalso; exact (split_on_nonnil _ _ E) | reflexivity].
Qed.

Lemma clean_segs_app_empty (l : list string) :
  forall stack, clean_segs (l ++ [""])%list stack = clean_segs l stack.
Proof.
  induction l as [|s l IH]; intros stack; [reflexivity|].
  simpl; destruct (String.eqb s "" || String.eqb s "."); [apply IH|].
  destruct (String.eqb s ".."); apply IH.
Qed.

Lemma path_clean_lead (s : string) : path_clean ("/" ++ s) = path_clean s.
Proof. reflexivity. Qed.

Lemma key_clean_path_clean (s : string) : key_clean s = path_clean s.
Proof.
  destruct s as [|c s]; [reflexivity|].
  unfold key_clean; destruct (Ascii.eqb c "/"); [reflexivity | apply path_clean_lead].
Qed.

Lemma prefix_branch (p base : string) (frag : string -> string) :
  (if String.eqb p "" then base
   else if String.eqb (NewKey p) "/" then base else base ++ frag (NewKey p))
  = (if String.eqb (NewKey p) "/" then base else base ++ frag (NewKey p)).
Proof.
  destruct (String.eqb p "") eqn:E; [apply String.eqb_eq in E; subst p; reflexivity | reflexivity].
Qed.

(** X15. The prefix is canonicalised before it reaches the SQL text: a
    leading or trailing slash does not change its key, and two prefixes
    with the same key (for instance the empty prefix and [/]) give the
    same SQL text. *)
Theorem QueryWithParams_prefix_canonical (qs : Queries) (q : Query) (p1 p2 : string) :
  NewKey ("/" ++ p1) = NewKey p1
  /\ NewKey (p1 ++ "/") = NewKey p1
  /\ (NewKey p1 = NewKey p2 ->
      QueryWithParams_sql qs (with_prefix q p1) = QueryWithParams_sql qs (with_prefix q p2)).
Proof.
  split; [|split].
  - unfold NewKey; rewrite !key_clean_path_clean; apply path_clean_lead.
  - unfold NewKey; rewrite !key_clean_path_clean; unfold path_clean.
    rewrite split_on_app_slash, clean_segs_app_empty; reflexivity.
  - intros H; unfold QueryWithParams_sql; cbn zeta; simpl Prefix.
    rewrite !(prefix_branch _ (queryQuery qs) (fun x => sprintf (prefixQuery qs) [FStr (x ++ "/")])).
    rewrite H; reflexivity.
Qed.

Lemma QueryWithParams_prefix_canonical_witness :
  let q := {| Prefix := ""; Filters := []; Orders := []; Limit := 10; Offset := 0;
              KeysOnly := false; ReturnsSizes := false |} in
  NewKey "a/b/" = NewKey "/a/b"
  /\ QueryWithParams_sql (Postgres.NewQueries "blocks") (with_prefix q "a/b/")
     = QueryWithParams_sql (Postgres.NewQueries "blocks") (with_prefix q "/a/b").
Proof.
  intros q.
  assert (H : NewKey "a/b/" = NewKey "/a/b") by reflexivity.
  split; [exact H|].
  exact (proj2 (proj2 (QueryWithParams_prefix_canonical (Postgres.NewQueries "blocks") q "a/b/" "/a/b")) H).
Defined.

(* ------------------------------------------------------------------ *)
(** ** The batch's transaction *)

(** X16. When [db.Begin] fails, [GetTransaction] of a fresh batch returns
    the error and no transaction; [Put] and [Delete] then call [Rollback]
    on the batch's nil transaction and panic instead of returning the
    error. *)
Theorem batch_Begin_failure_panics (f : Fault) (qs : Queries) (db : DB) (e : error)
    (k : string) (v : bytes) :
  f CBegin = Some e ->
  fst (batch.GetTransaction f (batch.new qs) db) = ((None, Some e), batch.new qs)
  /\ (exists m, batch.Put f k v (batch.new qs) db = Panic m)
  /\ (exists m, batch.Delete f k (batch.new qs) db = Panic m).
Proof.
  intros He; unfold batch.Put, batch.Delete, batch.exec_in_txn, batch.GetTransaction; simpl.
  rewrite He; repeat split; eexists; reflexivity.
Qed.

Lemma batch_Begin_failure_panics_witness :
  let f : Fault := fun c => match c with CBegin => Some (ErrDb "too many connections") | _ => None end in
  f CBegin = Some (ErrDb "too many connections")
  /\ exists m, batch.Put f "/a" [Byte.x01] (batch.new (Sqlite.NewQueries "blocks"))
                 {| db_table := []; db_log := [] |} = Panic m.
Proof.
  intros f.
  assert (H : f CBegin = Some (ErrDb "too many connections")) by reflexivity.
  split; [exact H|].
  exact (proj1 (proj2 (batch_Begin_failure_panics f (Sqlite.NewQueries "blocks")
                         {| db_table := []; db_log := [] |} _ "/a" [Byte.x01] H))).
Defined.

(** X17. A commit that succeeds finishes the batch's transaction. Once
    the transaction is finished (committed, or rolled back after a failed
    write or commit), every later [Put], [Delete] and [Commit] on the batch
    returns [sql.ErrTxDone] and leaves the table unchanged: a batch is not
    reusable. *)
Theorem batch_finished_txn (f : Fault) (b : batch.batch) (t : Tx) (db : DB) (k : string) (v : bytes) :
  (forall b0 db0 b1 db1, batch.Commit f b0 db0 = (None, b1, db1) -> batch.txn b1 = Some tx_done_now)
  /\ (batch.txn b = Some t -> tx_done t = true ->
      (exists b' db', batch.Put f k v b db = Ret (Some ErrTxDone, b', db') /\ db_table db' = db_table db)
      /\ (exists b' db', batch.Delete f k b db = Ret (Some ErrTxDone, b', db') /\ db_table db' = db_table db)
      /\ (exists b' db', batch.Commit f b db = (Some ErrTxDone, b', db') /\ db_table db' = db_table db)).
Proof.
  split.
  - intros b0 db0 b1 db1; unfold batch.Commit, tx_Commit.
    destruct (batch.txn b0) as [t0|]; [|discriminate].
    destruct (tx_done t0); simpl.
    + unfold tx_Rollback; simpl; destruct (tx_done t0); discriminate.
    + destruct (f CCommit); simpl; [unfold tx_Rollback; simpl; discriminate|].
      intros H; inversion H; reflexivity.
  - intros Ht Hd.
    unfold batch.Put, batch.Delete, batch.exec_in_txn, batch.GetTransaction, batch.Commit,
      tx_Exec, tx_Commit, batch.rollback_txn, tx_Rollback; rewrite Ht; simpl; rewrite Hd; simpl.
    rewrite ?Hd; simpl.
    repeat split; do 2 eexists; split; reflexivity.
Qed.

Lemma batch_finished_txn_witness :
  let b := {| batch.queries := Postgres.NewQueries "blocks"; batch.txn := Some tx_done_now |} in
  let db := {| db_table := [("/a", [Byte.x01])]; db_log := [] |} in
  batch.txn b = Some tx_done_now /\ tx_done tx_done_now = true
  /\ exists b' db', batch.Put no_fault "/b" [Byte.x02] b db = Ret (Some ErrTxDone, b', db')
                    /\ db_table db' = db_table db.
Proof.
  intros b db.
  split; [reflexivity | split; [reflexivity|]].
  exact (proj1 (proj2 (batch_finished_txn no_fault b tx_done_now db "/b" [Byte.x02]) eq_refl eq_refl)).
Defined.

Lemma exec_in_txn_begins (f : Fault) (st : string) (args : list SqlVal) (b b' : batch.batch) (db db' : DB) :
  batch.exec_in_txn f st args b db = Ret (None, b', db') ->
  batch.txn b' <> None
  /\ count_begins (db_log db')
     = (count_begins (db_log db) + match batch.txn b with Some _ => 0 | None => 1 end)%nat.
Proof.
  unfold batch.exec_in_txn, batch.GetTransaction, tx_Exec, batch.rollback_txn, tx_Rollback.
  destruct (batch.txn b) as [t|] eqn:Ht; simpl.
  - destruct (tx_done t) eqn:Hd; simpl; [intros H; rewrite ?Ht, ?Hd in H; cbn in H; rewrite ?Hd in H; discriminate|].
    destruct (f (CTxExec st args)); simpl; [intros H; rewrite ?Ht, ?Hd in H; cbn in H; rewrite ?Hd in H; discriminate|].
    destruct (eval_exec _ _ _ _); simpl; [|intros H; rewrite ?Ht, ?Hd in H; cbn in H; rewrite ?Hd in H; discriminate].
    intros H; inversion H; subst; simpl; split; [discriminate | unfold count_begins; simpl; lia].
  - destruct (f CBegin); simpl; [intros H; rewrite ?Ht, ?Hd in H; cbn in H; rewrite ?Hd in H; discriminate|].
    destruct (f (CTxExec st args)); simpl; [discriminate|].
    destruct (eval_exec _ _ _ _); simpl; [|discriminate].
    intros H; inversion H; subst; simpl; split; [discriminate | unfold count_begins; simpl; lia].
Qed.

Lemma run_begins_open (f : Fault) (os : list batch.Op) :
  forall b db b' db', batch.txn b <> None ->
  batch.run f os b db = Ret (None, b', db') ->
  count_begins (db_log db') = count_begins (db_log db).
Proof.
  induction os as [|o os IH]; intros b db b' db' Hb Hr; simpl in Hr.
  - inversion Hr; reflexivity.
  - destruct (batch.run_op f o b db) as [[[[e|] b1] db1]|m] eqn:Ho; try discriminate.
    assert (Hs : batch.txn b1 <> None /\ count_begins (db_log db1)
                 = (count_begins (db_log db) + match batch.txn b with Some _ => 0 | None => 1 end)%nat)
      by (destruct o; exact (exec_in_txn_begins _ _ _ _ _ _ _ Ho)).
    destruct Hs as [Hs Hc]; destruct (batch.txn b); [|contradiction].
    rewrite (IH _ _ _ _ Hs Hr), Hc; lia.
Qed.

(** X18. A batch opens one transaction and reuses it: a run of writes on
    a fresh batch that all succeed calls [db.Begin] exactly once (never
    when there are no writes), however many writes there are. *)
Theorem batch_single_begin (f : Fault) (qs : Queries) (db : DB) (os : list batch.Op)
    (b1 : batch.batch) (db1 : DB) :
  batch.run f os (batch.new qs) db = Ret (None, b1, db1) ->
  count_begins (db_log db1) = (count_begins (db_log db) + match os with [] => 0 | _ => 1 end)%nat.
Proof.
  destruct os as [|o os]; simpl; intros Hr.
  - inversion Hr; lia.
  - destruct (batch.run_op f o (batch.new qs) db) as [[[[e|] b] db']|m] eqn:Ho; try discriminate.
    assert (Hs : batch.txn b <> None /\ count_begins (db_log db')
                 = (count_begins (db_log db) + match batch.txn (batch.new qs) with Some _ => 0 | None => 1 end)%nat)
      by (destruct o; exact (exec_in_txn_begins _ _ _ _ _ _ _ Ho)).
    destruct Hs as [Hs Hc]; simpl in Hc.
    rewrite (run_begins_open f os b db' b1 db1 Hs Hr); exact Hc.
Qed.

Lemma batch_single_begin_witness :
  let qs := Sqlite.NewQueries "blocks" in
  let os := [batch.OpPut "/a" [Byte.x01]; batch.OpPut "/b" [Byte.x02]; batch.OpDelete "/c"] in
  let db := {| db_table := []; db_log := [] |} in
  exists b1 db1, batch.run no_fault os (batch.new qs) db = Ret (None, b1, db1)
                 /\ count_begins (db_log db1) = 1%nat.
Proof.
  intros qs os db.
  destruct (batch.run no_fault os (batch.new qs) db) as [[[[e|] b1] db1]|m] eqn:Hr;
    [vm_compute in Hr; discriminate | | vm_compute in Hr; discriminate].
  exists b1, db1; split; [reflexivity|].
  exact (batch_single_begin no_fault qs db os b1 db1 Hr).
Defined.
